(** * seed_database.py: the MongoDB seeding script, embedded and verified

    The script waits for a MongoDB server ([wait_for_mongodb]), loads a
    tabular file through a chain of pandas parsers ([load_dataset]) and
    inserts the rows into the [reports] collection when it is empty
    ([main]).

    Everything the script does goes through a library (os, time, pandas,
    pymongo, print).  The libraries are modelled as an environment [Env]
    of oracles (what the outside world answers: the probes, the parsers,
    the check of the database name, the count query and the insert, each
    of which may raise) and a [World] that the script changes: the trace
    of library calls in the order they happen, the number of probes sent
    so far, and the server's collections. *)

From Stdlib Require Import ZArith List String Ascii Lia.
From stdpp Require Import base gmap strings list fin_maps pretty.

Local Open Scope string_scope.
Local Open Scope Z_scope.
Local Open Scope list_scope.

(** ** Python values *)

(** An instance of Python's [Exception]: its class, the text [str(e)]
    gives, and [__cause__] as set by [raise ... from e].  Interrupts
    ([KeyboardInterrupt], [SystemExit]) are not [Exception]s and are
    outside the model. *)
#[warnings="-register-all"]
Inductive exn : Type :=
| Exn (cls : string) (msg : string) (cause : option exn).

Definition exn_cls (e : exn) : string := match e with Exn c _ _ => c end.
Definition str_exn (e : exn) : string := match e with Exn _ m _ => m end.
Definition exn_cause (e : exn) : option exn := match e with Exn _ _ c => c end.

(** A cell of a table.  The script never looks inside a cell. *)
Inductive scalar : Type :=
| SNull
| SInt (n : Z)
| SText (s : string).

(** A pandas DataFrame with the default index [0 .. index-1]: the columns
    in file order, each a label and its cells. *)
Record DataFrame : Type := mkDataFrame {
  index : nat;
  series : list (string * list scalar)
}.

(** [df.columns] *)
Definition columns (df : DataFrame) : list string := (series df).*1.

(** [df.drop(label, axis=1)]: every column carrying the label goes. *)
Definition drop (label : string) (df : DataFrame) : DataFrame :=
  {| index := index df;
     series := filter (λ c, c.1 ≠ label) (series df) |}.

(** A MongoDB document, and a row as [dict(zip(columns, row))]: a later
    column with the same label overwrites an earlier one. *)
Abbreviation document := (gmap string scalar).

Definition record_at (df : DataFrame) (i : nat) : document :=
  foldl (λ d c, match c.2 !! i with
                | Some v => <[c.1 := v]> d
                | None => d
                end) ∅ (series df).

(** [df.to_dict('records')]: one dict per row, as pandas documents it.
    (For a frame that has rows but no column at all the pandas versions
    disagree; the model follows the documentation there too.) *)
Definition to_dict_records (df : DataFrame) : list document :=
  map (record_at df) (seq 0 (index df)).

(** [MongoClient(uri)]: the handle remembers the URI; pymongo connects
    lazily, on the first command.  The URI is taken to be one the
    constructor can parse. *)
Record MongoClient : Type := mkClient { client_uri : string }.

(** ** The outside world *)

Inductive engine : Type := openpyxl | xlrd.

Inductive event : Type :=
| EGetenv (name : string)
| EConnect (uri : string)
| EIsmaster (uri : string)
| ESleep (secs : N)
| EPrint (line : string)
| EReadExcel (path : string) (eng : engine)
| EReadCsv (path : string)
| ECount (db coll : string)
| EInsertMany (db coll : string) (docs : list document).

Record Env : Type := mkEnv {
  (** [os.environ] *)
  environ : gmap string string;
  (** the answer to the n-th [ismaster] command sent in this run, counted
      from 0: [None] when the server answers, [Some e] when the driver
      raises [e] *)
  ismaster : nat → option exn;
  (** [pd.read_excel(path, engine=...)] and [pd.read_csv(path)] *)
  read_excel : string → engine → exn + DataFrame;
  read_csv : string → exn + DataFrame;
  (** [client[name]]: the [InvalidName] error pymongo raises for a
      database name it rejects; [None] for a name it accepts *)
  database_fault : string → option exn;
  (** a failing [count_documents]: the error the driver raised; [None]
      when the server answered *)
  count_fault : string → string → option exn;
  (** a failing [insert_many]: how many documents were written before
      the driver raised, and the error; [None] when acknowledged *)
  insert_fault : list document → option (nat * exn)
}.

Record World : Type := mkWorld {
  trace : list event;
  probes : nat;
  store : gmap (string * string) (list document)
}.

Definition log (ev : event) (w : World) : World :=
  {| trace := trace w ++ [ev]; probes := probes w; store := store w |}.

Definition probed (w : World) : World :=
  {| trace := trace w; probes := S (probes w); store := store w |}.

Definition documents (w : World) (db coll : string) : list document :=
  default [] (store w !! (db, coll)).

(** The collection after [docs] were written to it.  Documents are kept
    as they were sent: the [_id] the driver adds to each is left out. *)
Definition stored (db coll : string) (docs : list document) (w : World) : World :=
  {| trace := trace w; probes := probes w;
     store := <[(db, coll) := documents w db coll ++ docs]> (store w) |}.

(** ** Statements: state passing with exceptions *)

Inductive outcome (A : Type) : Type :=
| Ret (a : A)
| Raise (e : exn).
Arguments Ret {A} a.
Arguments Raise {A} e.

Definition M (A : Type) : Type := Env → World → outcome A * World.

Definition ret {A} (a : A) : M A := λ _ w, (Ret a, w).

Definition raise {A} (e : exn) : M A := λ _ w, (Raise e, w).

Definition bind {A B} (m : M A) (k : A → M B) : M B :=
  λ env w, match m env w with
           | (Ret a, w') => k a env w'
           | (Raise e, w') => (Raise e, w')
           end.

(** [try: body  except Exception as e: handler e] *)
Definition try_except {A} (body : M A) (handler : exn → M A) : M A :=
  λ env w, match body env w with
           | (Ret a, w') => (Ret a, w')
           | (Raise e, w') => handler e env w'
           end.

Declare Scope py_scope.
Delimit Scope py_scope with py.
Notation "x <- m ;; k" := (bind m (λ x, k))
  (at level 100, m at next level, k at level 200, right associativity) : py_scope.
Notation "m ;; k" := (bind m (λ _, k))
  (at level 100, k at level 200, right associativity) : py_scope.
Local Open Scope py_scope.

Definition emit (ev : event) : M unit := λ _ w, (Ret tt, log ev w).

(** ** Library calls *)

(** [os.environ.get(name, dflt)] *)
Definition environ_get (name dflt : string) : M string :=
  λ env w, (Ret (default dflt (environ env !! name)), log (EGetenv name) w).

Definition print (line : string) : M unit := emit (EPrint line).

(** [time.sleep(secs)] *)
Definition sleep (secs : N) : M unit := emit (ESleep secs).

Definition new_client (uri : string) : M MongoClient :=
  emit (EConnect uri);; ret (mkClient uri).

(** [client.admin.command('ismaster')] *)
Definition admin_ismaster (client : MongoClient) : M unit :=
  λ env w,
    let w' := probed (log (EIsmaster (client_uri client)) w) in
    match ismaster env (probes w) with
    | None => (Ret tt, w')
    | Some e => (Raise e, w')
    end.

Definition pd_read_excel (path : string) (eng : engine) : M DataFrame :=
  λ env w,
    let w' := log (EReadExcel path eng) w in
    match read_excel env path eng with
    | inr df => (Ret df, w')
    | inl e => (Raise e, w')
    end.

Definition pd_read_csv (path : string) : M DataFrame :=
  λ env w,
    let w' := log (EReadCsv path) w in
    match read_csv env path with
    | inr df => (Ret df, w')
    | inl e => (Raise e, w')
    end.

(** [client[name]]: the database handle, here its name.  No command is
    sent; pymongo only checks the name. *)
Definition get_database (client : MongoClient) (name : string) : M string :=
  λ env w,
    match database_fault env name with
    | None => (Ret name, w)
    | Some e => (Raise e, w)
    end.

(** [db[coll].count_documents({})] *)
Definition count_documents (db coll : string) : M nat :=
  λ env w,
    let w' := log (ECount db coll) w in
    match count_fault env db coll with
    | None => (Ret (length (documents w db coll)), w')
    | Some e => (Raise e, w')
    end.

(** [db[coll].insert_many(docs)], giving [len(result.inserted_ids)] *)
Definition insert_many (db coll : string) (docs : list document) : M nat :=
  λ env w,
    let w' := log (EInsertMany db coll docs) w in
    match insert_fault env docs with
    | None => (Ret (length docs), stored db coll docs w')
    | Some (n, e) => (Raise e, stored db coll (take n docs) w')
    end.

(** ** Python control flow *)

(** [range(n)] *)
Definition range (n : Z) : list Z := map Z.of_nat (seq 0 (Z.to_nat n)).

(** [for i in items: body i], where the body answers [Some r] when it
    executes [return r] and [None] when it falls through to the next
    round; the loop answers [None] when the items run out. *)
Fixpoint for_in {A R} (items : list A) (body : A → M (option R)) : M (option R) :=
  match items with
  | [] => ret None
  | i :: rest =>
      r <- body i;;
      match r with
      | Some v => ret (Some v)
      | None => for_in rest body
      end
  end.

(** [str.split(sep)] for a one-character separator. *)
Fixpoint split (sep : ascii) (s : string) : list string :=
  match s with
  | EmptyString => [EmptyString]
  | String c s' =>
      if Ascii.eqb c sep then EmptyString :: split sep s'
      else match split sep s' with
           | w :: ws => String c w :: ws
           | [] => [String c EmptyString]
           end
  end.

(** [xs[-1]]; [str.split] never gives an empty list. *)
Definition last_item (xs : list string) : string := List.last xs EmptyString.

(** ** The script *)

Definition retry_message (i max_retries : Z) : string :=
  "MongoDB not yet available, waiting... (" +:+ pretty (i + 1) +:+ "/"
    +:+ pretty max_retries +:+ ")".

Definition connect_error (e : exn) : exn :=
  Exn "Exception" "Could not connect to MongoDB after retries" (Some e).

(** One round of the [for] loop: the [try] statement with the probe. *)
Definition wait_round (client : MongoClient) (max_retries : Z) (delay : N) (i : Z)
  : M (option MongoClient) :=
  try_except
    (admin_ismaster client;;
     print "MongoDB is available!";;
     ret (Some client))
    (λ e,
      if i <? max_retries - 1 then
        print (retry_message i max_retries);;
        sleep delay;;
        ret None
      else
        raise (connect_error e)).

(** The result is [Some client] or Python's [None]. *)
Definition wait_for_mongodb (uri : string) (max_retries : Z) (delay : N)
  : M (option MongoClient) :=
  client <- new_client uri;;
  for_in (range max_retries) (wait_round client max_retries delay).

Definition load_dataset (file_path : string) : M DataFrame :=
  df <- try_except
          (print ("Loading dataset from " +:+ file_path +:+ " using Excel engine...");;
           pd_read_excel file_path openpyxl)
          (λ e,
            print ("Excel load failed: " +:+ str_exn e);;
            try_except
              (print "Trying with xlrd engine...";;
               pd_read_excel file_path xlrd)
              (λ xlrd_error,
                print ("xlrd load failed: " +:+ str_exn xlrd_error);;
                print "Falling back to CSV parser...";;
                pd_read_csv file_path));;
  df <- (if bool_decide ("Unnamed: 0" ∈ columns df)
         then ret (drop "Unnamed: 0" df)
         else ret df);;
  ret df.

(** [client[db_name]] when [client] is [None] *)
Definition not_subscriptable : exn :=
  Exn "TypeError" "'NoneType' object is not subscriptable" None.

Definition main : M unit :=
  mongo_uri <- environ_get "MONGO_URI" "mongodb://mongodb:27017/german_credit";;
  dataset_path <- environ_get "DATASET_PATH" "/app/german_credit_data.xls";;
  client <- wait_for_mongodb mongo_uri 30 2;;
  let db_name := last_item (split "/" mongo_uri) in
  match client with
  | None => raise not_subscriptable
  | Some client =>
      db <- get_database client db_name;;
      count <- count_documents db "reports";;
      if bool_decide (0 < count)%nat then
        print ("Collection already has " +:+ pretty count
                 +:+ " documents, skipping seed.");;
        ret tt
      else
        df <- load_dataset dataset_path;;
        let records := to_dict_records df in
        inserted <- insert_many db "reports" records;;
        print ("Seeded " +:+ pretty inserted +:+ " documents into "
                 +:+ db_name +:+ ".reports")
  end.

(** ** Reading a run *)

(** The world after [n] more probes and the library calls [evs]. *)
Definition advance (n : nat) (evs : list event) (w : World) : World :=
  {| trace := trace w ++ evs; probes := probes w + n; store := store w |}.

(** The library calls made between two worlds of one run. *)
Definition events_since (w w' : World) : list event :=
  List.skipn (length (trace w)) (trace w').

Definition is_sleep (ev : event) : bool :=
  match ev with ESleep _ => true | _ => false end.
Definition is_probe (ev : event) : bool :=
  match ev with EIsmaster _ => true | _ => false end.
Definition is_insert (ev : event) : bool :=
  match ev with EInsertMany _ _ _ => true | _ => false end.
Definition is_read (ev : event) : bool :=
  match ev with EReadExcel _ _ | EReadCsv _ => true | _ => false end.
Definition is_getenv (ev : event) : bool :=
  match ev with EGetenv _ => true | _ => false end.

Definition count_of (p : event → bool) (evs : list event) : nat :=
  length (List.filter p evs).

(** Sample worlds: a server that answers the third probe, a file that
    only xlrd can read, and a driver that acknowledges every insert. *)
Definition refused : exn := Exn "ServerSelectionTimeoutError" "connection refused" None.
Definition no_file : exn := Exn "FileNotFoundError" "No such file or directory" None.
Definition bad_zip : exn := Exn "BadZipFile" "File is not a zip file" None.

(** pymongo's check of a database name: not empty, and none of the
    characters space, [.], [$], [/], backslash, NUL and double quote. *)
Definition invalid_name_chars : list ascii :=
  [" "; "."; "$"; "/"; ascii_of_nat 92; ascii_of_nat 0; ascii_of_nat 34]%char.

Fixpoint has_any (cs : list ascii) (name : string) : option ascii :=
  match cs with
  | [] => None
  | c :: cs' =>
      if existsb (Ascii.eqb c) (list_ascii_of_string name) then Some c
      else has_any cs' name
  end.

Definition check_name (name : string) : option exn :=
  match name with
  | EmptyString =>
      Some (Exn "InvalidName" "database name cannot be the empty string" None)
  | _ =>
      match has_any invalid_name_chars name with
      | Some c =>
          Some (Exn "InvalidName"
                  ("database names cannot contain the character '"
                     +:+ String c "'") None)
      | None => None
      end
  end.

Definition demo_frame : DataFrame :=
  {| index := 2;
     series := [("Unnamed: 0", [SInt 0; SInt 1]);
                ("Age", [SInt 67; SInt 22]);
                ("Sex", [SText "male"; SText "female"])] |}.

Definition demo_env : Env :=
  {| environ := ∅;
     ismaster := λ n, if (n <? 2)%nat then Some refused else None;
     read_excel := λ _ eng, match eng with openpyxl => inl bad_zip | xlrd => inr demo_frame end;
     read_csv := λ _, inl no_file;
     database_fault := check_name;
     count_fault := λ _ _, None;
     insert_fault := λ _, None |}.

(** A server that never answers and a path where no file is. *)
Definition down_env : Env :=
  {| environ := ∅;
     ismaster := λ _, Some refused;
     read_excel := λ _ _, inl no_file;
     read_csv := λ _, inl no_file;
     database_fault := check_name;
     count_fault := λ _ _, None;
     insert_fault := λ _, None |}.

(** A server that answers at once, with no file at the dataset path. *)
Definition unreadable_env : Env :=
  {| environ := ∅;
     ismaster := λ _, None;
     read_excel := λ _ _, inl bad_zip;
     read_csv := λ _, inl no_file;
     database_fault := check_name;
     count_fault := λ _ _, None;
     insert_fault := λ _, None |}.

(** A driver that fails after writing the first document. *)
Definition write_error : exn := Exn "BulkWriteError" "batch op errors occurred" None.

Definition faulty_env : Env :=
  {| environ := ∅;
     ismaster := λ _, None;
     read_excel := λ _ _, inr demo_frame;
     read_csv := λ _, inl no_file;
     database_fault := check_name;
     count_fault := λ _ _, None;
     insert_fault := λ _, Some (1%nat, write_error) |}.

(** A dataset file with a header line and no row. *)
Definition empty_file_env : Env :=
  {| environ := ∅;
     ismaster := λ _, None;
     read_excel := λ _ _, inr {| index := 0; series := [("Age", [])] |};
     read_csv := λ _, inl no_file;
     database_fault := check_name;
     count_fault := λ _ _, None;
     insert_fault := λ _, None |}.

(** The server answers at once but the URI ends in a slash, so that the
    database name is empty. *)
Definition slash_env : Env :=
  {| environ := {[ "MONGO_URI" := "mongodb://mongodb:27017/" ]};
     ismaster := λ _, None;
     read_excel := λ _ _, inr demo_frame;
     read_csv := λ _, inl no_file;
     database_fault := check_name;
     count_fault := λ _ _, None;
     insert_fault := λ _, None |}.

(** The count query is refused: the user may not read the database. *)
Definition unauthorized : exn :=
  Exn "OperationFailure" "not authorized on german_credit to execute command" None.

Definition locked_env : Env :=
  {| environ := ∅;
     ismaster := λ _, None;
     read_excel := λ _ _, inr demo_frame;
     read_csv := λ _, inl no_file;
     database_fault := check_name;
     count_fault := λ _ _, Some unauthorized;
     insert_fault := λ _, None |}.

Definition world0 : World := {| trace := []; probes := 0; store := ∅ |}.

(** A server whose [german_credit.reports] already holds a document. *)
Definition seeded_world : World :=
  {| trace := []; probes := 0;
     store := {[ ("german_credit", "reports") := [ {[ "Age" := SInt 67 ]} ] ]} |}.

(** What a failed round that is not the last one leaves in the trace. *)
Definition retry_events (uri : string) (max_retries : Z) (delay : N) (i : Z)
  : list event :=
  [EIsmaster uri; EPrint (retry_message i max_retries); ESleep delay].

(** The trace of the waiter when attempt [k] is the first to succeed. *)
Definition success_events (uri : string) (max_retries : Z) (delay : N) (k : nat)
  : list event :=
  EConnect uri
    :: flat_map (retry_events uri max_retries delay) (map Z.of_nat (seq 0 (k - 1)))
    ++ [EIsmaster uri; EPrint "MongoDB is available!"].

(** The frame after the clean-up step of [load_dataset]. *)
Definition cleaned (df : DataFrame) : DataFrame :=
  if bool_decide ("Unnamed: 0" ∈ columns df) then drop "Unnamed: 0" df else df.

(** The frame [load_dataset] binds to [df] in its [try] statement: the
    answer of the first parser that does not raise, else the error of
    [pd.read_csv]. *)
Definition parsed_frame (env : Env) (path : string) : exn + DataFrame :=
  match read_excel env path openpyxl with
  | inr df => inr df
  | inl _ =>
      match read_excel env path xlrd with
      | inr df => inr df
      | inl _ => read_csv env path
      end
  end.

(** The trace of the parse chain, stage by stage. *)
Definition stage1_events (path : string) : list event :=
  [EPrint ("Loading dataset from " +:+ path +:+ " using Excel engine...");
   EReadExcel path openpyxl].

Definition stage2_events (path : string) (e : exn) : list event :=
  [EPrint ("Excel load failed: " +:+ str_exn e);
   EPrint "Trying with xlrd engine...";
   EReadExcel path xlrd].

Definition stage3_events (path : string) (xlrd_error : exn) : list event :=
  [EPrint ("xlrd load failed: " +:+ str_exn xlrd_error);
   EPrint "Falling back to CSV parser...";
   EReadCsv path].

(** The library calls the waiter can make. *)
Definition is_wait_event (ev : event) : bool :=
  match ev with
  | EConnect _ | EIsmaster _ | EPrint _ | ESleep _ => true
  | _ => false
  end.

(** The statements of [main] that follow the wait, from the count query
    on, as a block of their own. *)
Definition seed_steps (db_name dataset_path : string) : M unit :=
  count <- count_documents db_name "reports";;
  if bool_decide (0 < count)%nat then
    print ("Collection already has " +:+ pretty count
             +:+ " documents, skipping seed.");;
    ret tt
  else
    df <- load_dataset dataset_path;;
    let records := to_dict_records df in
    inserted <- insert_many db_name "reports" records;;
    print ("Seeded " +:+ pretty inserted +:+ " documents into "
             +:+ db_name +:+ ".reports").

(** The configuration [main] reads. *)
Definition config_events : list event :=
  [EGetenv "MONGO_URI"; EGetenv "DATASET_PATH"].

Definition mongo_uri_of (env : Env) : string :=
  default "mongodb://mongodb:27017/german_credit" (environ env !! "MONGO_URI").

Definition dataset_path_of (env : Env) : string :=
  default "/app/german_credit_data.xls" (environ env !! "DATASET_PATH").

Definition db_name_of (env : Env) : string :=
  last_item (split "/" (mongo_uri_of env)).

(** Whether a character occurs in a string. *)
Fixpoint has_char (c : ascii) (s : string) : bool :=
  match s with
  | EmptyString => false
  | String c' s' => Ascii.eqb c' c || has_char c s'
  end.

(** The library calls the seeding steps can make on database [db] with
    the file [path]. *)
Definition seed_event (db path : string) (ev : event) : Prop :=
  match ev with
  | EPrint _ => True
  | EReadExcel p _ | EReadCsv p => p = path
  | ECount d c | EInsertMany d c _ => d = db ∧ c = "reports"
  | _ => False
  end.

(** The same outside world with other environment variables. *)
Definition with_environ (vars : gmap string string) (env : Env) : Env :=
  {| environ := vars;
     ismaster := ismaster env;
     read_excel := read_excel env;
     read_csv := read_csv env;
     database_fault := database_fault env;
     count_fault := count_fault env;
     insert_fault := insert_fault env |}.

(** A statement that does not read the environment variables. *)
Definition blind {A} (m : M A) : Prop :=
  ∀ vars env w, m (with_environ vars env) w = m env w.

(** The trace of the waiter when every one of its probes fails. *)
Definition exhausted_events (uri : string) (max_retries : Z) (delay : N)
  : list event :=
  EConnect uri
    :: flat_map (retry_events uri max_retries delay)
         (map Z.of_nat (seq 0 (Z.to_nat (max_retries - 1))))
    ++ [EIsmaster uri].

(** ** Worlds and traces *)

Lemma advance_0_nil w : advance 0 [] w = w.
Proof.
  destruct w as [t p st]. unfold advance; simpl.
  rewrite app_nil_r, Nat.add_0_r. reflexivity.
Qed.

Lemma advance_advance n1 n2 evs1 evs2 w :
  advance n2 evs2 (advance n1 evs1 w) = advance (n1 + n2) (evs1 ++ evs2) w.
Proof.
  unfold advance; simpl. rewrite <- app_assoc, Nat.add_assoc. reflexivity.
Qed.

Lemma log_advance ev w : log ev w = advance 0 [ev] w.
Proof. unfold log, advance; simpl. rewrite Nat.add_0_r. reflexivity. Qed.

Lemma probed_advance w : probed w = advance 1 [] w.
Proof.
  unfold probed, advance; simpl.
  rewrite app_nil_r, Nat.add_1_r. reflexivity.
Qed.

Lemma events_since_advance n evs w : events_since w (advance n evs w) = evs.
Proof. unfold events_since, advance; simpl. apply drop_app_length. Qed.

Lemma count_of_app p evs1 evs2 :
  count_of p (evs1 ++ evs2) = (count_of p evs1 + count_of p evs2)%nat.
Proof. unfold count_of. rewrite List.filter_app, length_app. reflexivity. Qed.

(** ** The connectivity waiter *)

Section Waiter.
Variable env : Env.
Variable client : MongoClient.
Variable max_retries : Z.
Variable delay : N.

Let round := wait_round client max_retries delay.
Let uri := client_uri client.

Lemma round_available i w :
  ismaster env (probes w) = None →
  round i env w =
    (Ret (Some client), advance 1 [EIsmaster uri; EPrint "MongoDB is available!"] w).
Proof.
  intros Hok. unfold round, wait_round, try_except, bind, admin_ismaster.
  rewrite Hok. unfold print, emit, ret. f_equal.
  rewrite probed_advance, !log_advance, !advance_advance. reflexivity.
Qed.

Lemma round_retry i w e :
  ismaster env (probes w) = Some e →
  i < max_retries - 1 →
  round i env w = (Ret None, advance 1 (retry_events uri max_retries delay i) w).
Proof.
  intros Hko Hi. unfold round, wait_round, try_except, bind, admin_ismaster.
  rewrite Hko. apply Z.ltb_lt in Hi. rewrite Hi.
  unfold print, sleep, emit, ret. f_equal.
  rewrite probed_advance, !log_advance, !advance_advance. reflexivity.
Qed.

Lemma round_give_up i w e :
  ismaster env (probes w) = Some e →
  max_retries - 1 ≤ i →
  round i env w = (Raise (connect_error e), advance 1 [EIsmaster uri] w).
Proof.
  intros Hko Hi. unfold round, wait_round, try_except, bind, admin_ismaster.
  rewrite Hko. apply Z.ltb_ge in Hi. rewrite Hi.
  unfold raise. f_equal.
  rewrite probed_advance, !log_advance, !advance_advance. reflexivity.
Qed.

(** [n] failed rounds in a row, none of them the last of the loop. *)
Lemma rounds_retry n : ∀ (a : nat) (w : World) (rest : list Z),
  (∀ j, (j < n)%nat → ismaster env (probes w + j) ≠ None) →
  Z.of_nat (a + n) ≤ max_retries - 1 →
  for_in (map Z.of_nat (seq a n) ++ rest) round env w =
  for_in rest round env
    (advance n (flat_map (retry_events uri max_retries delay)
                         (map Z.of_nat (seq a n))) w).
Proof.
  induction n as [|n IH]; intros a w rest Hfail Hlast.
  - simpl. rewrite advance_0_nil. reflexivity.
  - destruct (ismaster env (probes w)) as [e|] eqn:He.
    2: { exfalso. apply (Hfail 0%nat); [lia|]. rewrite Nat.add_0_r. exact He. }
    cbn [seq map app for_in flat_map]. unfold bind at 1.
    rewrite (round_retry _ _ e He) by lia.
    rewrite IH.
    + rewrite advance_advance. reflexivity.
    + intros j Hj. cbn [advance probes].
      replace (probes w + 1 + j)%nat with (probes w + S j)%nat by lia.
      apply Hfail. lia.
    + lia.
Qed.
End Waiter.

Lemma range_split (n : Z) (k : nat) :
  Z.of_nat k ≤ n →
  range n = map Z.of_nat (seq 0 k) ++ map Z.of_nat (seq k (Z.to_nat n - k)).
Proof.
  intros Hk. unfold range. rewrite <- map_app, <- seq_app.
  do 2 f_equal. lia.
Qed.

Lemma count_sleeps_retries uri max delay (ixs : list Z) :
  count_of is_sleep (flat_map (retry_events uri max delay) ixs) = length ixs.
Proof.
  induction ixs as [|i ixs IH]; [reflexivity|].
  cbn [flat_map]. rewrite count_of_app, IH. reflexivity.
Qed.

Lemma count_probes_retries uri max delay (ixs : list Z) :
  count_of is_probe (flat_map (retry_events uri max delay) ixs) = length ixs.
Proof.
  induction ixs as [|i ixs IH]; [reflexivity|].
  cbn [flat_map]. rewrite count_of_app, IH. reflexivity.
Qed.

Lemma wait_run_success env w uri max_retries delay (k : nat) :
  (1 ≤ k)%nat →
  Z.of_nat k ≤ max_retries →
  (∀ j, (j < k - 1)%nat → ismaster env (probes w + j) ≠ None) →
  ismaster env (probes w + (k - 1)) = None →
  wait_for_mongodb uri max_retries delay env w =
    (Ret (Some (mkClient uri)),
     advance k (success_events uri max_retries delay k) w).
Proof.
  intros Hk Hmax Hfail Hok.
  unfold wait_for_mongodb, new_client, bind at 1 2, emit, ret.
  rewrite (range_split max_retries (k - 1)) by lia.
  rewrite rounds_retry.
  2: { intros j Hj. cbn [log probes]. apply Hfail, Hj. }
  2: lia.
  replace (Z.to_nat max_retries - (k - 1))%nat
    with (S (Z.to_nat max_retries - k))%nat by lia.
  cbn [seq map for_in]. unfold bind at 1.
  rewrite round_available by exact Hok.
  unfold ret. rewrite log_advance, !advance_advance.
  replace (0 + (k - 1 + 1))%nat with k by lia. reflexivity.
Qed.

Lemma success_events_sleeps uri max_retries delay k :
  count_of is_sleep (success_events uri max_retries delay k) = (k - 1)%nat.
Proof.
  unfold success_events.
  change (EConnect uri :: ?l) with ([EConnect uri] ++ l).
  rewrite !count_of_app, count_sleeps_retries, length_map, length_seq.
  cbn. lia.
Qed.

Lemma success_events_probes uri max_retries delay k :
  (1 ≤ k)%nat →
  count_of is_probe (success_events uri max_retries delay k) = k.
Proof.
  intros Hk. unfold success_events.
  change (EConnect uri :: ?l) with ([EConnect uri] ++ l).
  rewrite !count_of_app, count_probes_retries, length_map, length_seq.
  cbn. lia.
Qed.

(** C6.  When the probe first succeeds on attempt [k] with
    [1 ≤ k ≤ max_retries], the waiter returns the connection handle right
    after that probe: the trace holds [k-1] failed rounds, each a probe, a
    message and a sleep, then the [k]-th probe and the success message, so
    exactly [k-1] sleeps and [k] probes, and nothing after them. *)
Theorem wait_returns_at_first_success env w uri max_retries delay (k : nat) :
  (1 ≤ k)%nat →
  Z.of_nat k ≤ max_retries →
  (∀ j, (j < k - 1)%nat → ismaster env (probes w + j) ≠ None) →
  ismaster env (probes w + (k - 1)) = None →
  ∃ w',
    wait_for_mongodb uri max_retries delay env w = (Ret (Some (mkClient uri)), w') ∧
    events_since w w' =
      EConnect uri
        :: flat_map (retry_events uri max_retries delay) (range (Z.of_nat k - 1))
        ++ [EIsmaster uri; EPrint "MongoDB is available!"] ∧
    count_of is_sleep (events_since w w') = (k - 1)%nat ∧
    count_of is_probe (events_since w w') = k ∧
    probes w' = (probes w + k)%nat ∧
    store w' = store w.
Proof.
  intros Hk Hmax Hfail Hok.
  exists (advance k (success_events uri max_retries delay k) w).
  split; [apply wait_run_success; assumption|].
  rewrite events_since_advance.
  split.
  { unfold success_events, range.
    replace (Z.to_nat (Z.of_nat k - 1)) with (k - 1)%nat by lia. reflexivity. }
  split; [apply success_events_sleeps|].
  split; [apply success_events_probes, Hk|].
  split; reflexivity.
Qed.

(** C5.  When all [max_retries ≥ 1] probes fail, the waiter raises once:
    the error is [Exception("Could not connect to MongoDB after retries")]
    whose cause is the failure of the last probe; before it the trace
    holds [max_retries - 1] failed rounds with one sleep each and then the
    last probe, which is followed by no sleep. *)
Theorem wait_raises_after_all_fail env w uri max_retries delay :
  1 ≤ max_retries →
  (∀ j : nat, Z.of_nat j < max_retries → ismaster env (probes w + j) ≠ None) →
  ∃ e w',
    ismaster env (probes w + Z.to_nat (max_retries - 1)) = Some e ∧
    wait_for_mongodb uri max_retries delay env w =
      (Raise (Exn "Exception" "Could not connect to MongoDB after retries" (Some e)),
       w') ∧
    events_since w w' =
      EConnect uri
        :: flat_map (retry_events uri max_retries delay) (range (max_retries - 1))
        ++ [EIsmaster uri] ∧
    count_of is_sleep (events_since w w') = Z.to_nat (max_retries - 1) ∧
    count_of is_probe (events_since w w') = Z.to_nat max_retries ∧
    store w' = store w.
Proof.
  intros Hmax Hfail.
  set (n := Z.to_nat (max_retries - 1)).
  destruct (ismaster env (probes w + n)) as [e|] eqn:He.
  2: { exfalso. apply (Hfail n); [lia | exact He]. }
  exists e.
  unfold wait_for_mongodb, new_client, bind at 1 2, emit, ret.
  rewrite (range_split max_retries n) by lia.
  rewrite rounds_retry.
  2: { intros j Hj. cbn [log probes]. apply Hfail. lia. }
  2: lia.
  replace (Z.to_nat max_retries - n)%nat with 1%nat by lia.
  cbn [seq map for_in]. unfold bind at 1.
  rewrite (round_give_up _ _ _ _ _ _ e) by (cbn [advance log probes]; [exact He || lia]).
  rewrite log_advance, !advance_advance.
  eexists; split; [reflexivity|]. split; [reflexivity|].
  rewrite events_since_advance.
  change (range (max_retries - 1)) with (map Z.of_nat (seq 0 n)).
  cbn [app]. split; [reflexivity|].
  split; [|split].
  - change (EConnect uri :: ?l) with ([EConnect uri] ++ l).
    rewrite !count_of_app, count_sleeps_retries, length_map, length_seq.
    cbn. lia.
  - change (EConnect uri :: ?l) with ([EConnect uri] ++ l).
    rewrite !count_of_app, count_probes_retries, length_map, length_seq.
    cbn. lia.
  - reflexivity.
Qed.

(** C9.  With a maximum attempt count of zero the loop body never runs:
    the waiter sends no probe, never sleeps, and returns Python's [None],
    which is neither a raised error nor a connection handle. *)
Theorem wait_zero_retries_returns_none env w uri delay :
  ∃ w',
    wait_for_mongodb uri 0 delay env w = (Ret None, w') ∧
    events_since w w' = [EConnect uri] ∧
    count_of is_probe (events_since w w') = 0%nat ∧
    count_of is_sleep (events_since w w') = 0%nat ∧
    probes w' = probes w ∧
    (∀ e, (wait_for_mongodb uri 0 delay env w).1 ≠ Raise e) ∧
    (∀ c, (wait_for_mongodb uri 0 delay env w).1 ≠ Ret (Some c)).
Proof.
  exists (advance 0 [EConnect uri] w).
  assert (Hrun : wait_for_mongodb uri 0 delay env w
                 = (Ret None, advance 0 [EConnect uri] w)).
  { unfold wait_for_mongodb, new_client, bind, emit, ret. cbn.
    rewrite log_advance. reflexivity. }
  rewrite Hrun, events_since_advance. cbn.
  repeat split; try reflexivity; try lia; intros; discriminate.
Qed.

(** ** The dataset loader *)

Lemma cleanup_step (df : DataFrame) env w :
  (df <- (if bool_decide ("Unnamed: 0" ∈ columns df)
          then ret (drop "Unnamed: 0" df)
          else ret df);;
   ret df) env w
  = (Ret (cleaned df), w).
Proof. unfold bind, ret, cleaned. destruct (bool_decide _); reflexivity. Qed.

(** The outcome and the trace of the loader in each of its four cases. *)
Lemma load_dataset_run env w path :
  load_dataset path env w =
    match read_excel env path openpyxl with
    | inr df => (Ret (cleaned df), advance 0 (stage1_events path) w)
    | inl e =>
        match read_excel env path xlrd with
        | inr df =>
            (Ret (cleaned df),
             advance 0 (stage1_events path ++ stage2_events path e) w)
        | inl xlrd_error =>
            match read_csv env path with
            | inr df =>
                (Ret (cleaned df),
                 advance 0 (stage1_events path ++ stage2_events path e
                              ++ stage3_events path xlrd_error) w)
            | inl csv_error =>
                (Raise csv_error,
                 advance 0 (stage1_events path ++ stage2_events path e
                              ++ stage3_events path xlrd_error) w)
            end
        end
    end.
Proof.
  unfold load_dataset.
  unfold bind at 1.
  unfold try_except at 1. unfold bind at 1, print at 1, emit, pd_read_excel at 1.
  destruct (read_excel env path openpyxl) as [e|df] eqn:H1.
  - unfold bind at 1, print at 1, emit.
    unfold try_except at 1. unfold bind at 1, print at 1, emit, pd_read_excel.
    destruct (read_excel env path xlrd) as [xe|df] eqn:H2.
    + unfold bind at 1, print at 1, emit.
      unfold bind at 1, print at 1, emit, pd_read_csv.
      destruct (read_csv env path) as [ce|df] eqn:H3.
      * rewrite !log_advance, !advance_advance. reflexivity.
      * rewrite cleanup_step, !log_advance, !advance_advance. reflexivity.
    + rewrite cleanup_step, !log_advance, !advance_advance. reflexivity.
  - rewrite cleanup_step, !log_advance, !advance_advance. reflexivity.
Qed.

(** C4.  The loader calls the parsers in the order openpyxl, xlrd, csv and
    stops at the first that answers, whose frame (cleaned) it returns.  A
    failure of the openpyxl or of the xlrd stage is caught, its text
    printed, and the next stage runs; a failure of the csv stage is the
    loader's own outcome.  The parser calls in the trace are the first
    one, two or three of the chain, never more and never reordered. *)
Theorem load_dataset_fallback_chain env w path :
  let run := load_dataset path env w in
  let calls := [EReadExcel path openpyxl; EReadExcel path xlrd; EReadCsv path] in
  match read_excel env path openpyxl with
  | inr df =>
      run.1 = Ret (cleaned df) ∧
      events_since w run.2 = stage1_events path ∧
      List.filter is_read (events_since w run.2) = take 1 calls
  | inl e =>
      match read_excel env path xlrd with
      | inr df =>
          run.1 = Ret (cleaned df) ∧
          events_since w run.2 = stage1_events path ++ stage2_events path e ∧
          List.filter is_read (events_since w run.2) = take 2 calls
      | inl xlrd_error =>
          events_since w run.2 =
            stage1_events path ++ stage2_events path e
              ++ stage3_events path xlrd_error ∧
          List.filter is_read (events_since w run.2) = calls ∧
          match read_csv env path with
          | inr df => run.1 = Ret (cleaned df)
          | inl csv_error => run.1 = Raise csv_error
          end
      end
  end.
Proof.
  intros run calls. subst run. rewrite load_dataset_run.
  destruct (read_excel env path openpyxl) as [e|df].
  2: { cbn [fst snd]. rewrite events_since_advance. repeat split. }
  destruct (read_excel env path xlrd) as [xe|df].
  2: { cbn [fst snd]. rewrite events_since_advance. repeat split. }
  destruct (read_csv env path) as [ce|df];
    cbn [fst snd]; rewrite events_since_advance; repeat split.
Qed.

Lemma filter_other_labels (label : string) (cols : list (string * list scalar)) :
  label ∉ cols.*1 → filter (λ c, c.1 ≠ label) cols = cols.
Proof.
  induction cols as [|c cols IH]; intros Hnot; [reflexivity|].
  rewrite fmap_cons, not_elem_of_cons in Hnot. destruct Hnot as [Hc Hrest].
  rewrite filter_cons_True by (intros Heq; apply Hc; symmetry; exact Heq).
  rewrite IH by exact Hrest. reflexivity.
Qed.

Lemma filter_label_gone (label : string) (cols : list (string * list scalar)) :
  label ∉ (filter (λ c, c.1 ≠ label) cols).*1.
Proof.
  intros Hin. apply list_elem_of_fmap in Hin as [c [Hc Hin]].
  apply list_elem_of_filter in Hin as [Hne _]. apply Hne. symmetry. exact Hc.
Qed.

Lemma cleaned_series df :
  series (cleaned df) = filter (λ c, c.1 ≠ "Unnamed: 0") (series df).
Proof.
  unfold cleaned. case_bool_decide as Hin; [reflexivity|].
  symmetry. apply filter_other_labels. exact Hin.
Qed.

Lemma cleaned_index df : index (cleaned df) = index df.
Proof. unfold cleaned. case_bool_decide; reflexivity. Qed.

Lemma load_dataset_parsed env w path df :
  parsed_frame env path = inr df →
  ∃ evs, load_dataset path env w = (Ret (cleaned df), advance 0 evs w).
Proof.
  unfold parsed_frame. intros Hparsed. rewrite load_dataset_run.
  destruct (read_excel env path openpyxl) as [e|df1].
  2: { inversion Hparsed; subst. eexists; reflexivity. }
  destruct (read_excel env path xlrd) as [xe|df2].
  2: { inversion Hparsed; subst. eexists; reflexivity. }
  rewrite Hparsed. eexists; reflexivity.
Qed.

(** C7.  Whatever parser produced the frame, the loader returns it with
    the same rows and with exactly the columns whose label is not
    ["Unnamed: 0"], in their order and with their cells untouched.  When
    no column has that label the frame comes back as it was parsed; when
    one column has it, that column alone is taken out. *)
Theorem load_dataset_drops_only_placeholder env w path df :
  parsed_frame env path = inr df →
  ∃ df' w',
    load_dataset path env w = (Ret df', w') ∧
    index df' = index df ∧
    series df' = filter (λ c, c.1 ≠ "Unnamed: 0") (series df) ∧
    ("Unnamed: 0" ∉ columns df') ∧
    ("Unnamed: 0" ∉ columns df → df' = df) ∧
    (∀ before cells after,
       series df = before ++ ("Unnamed: 0", cells) :: after →
       "Unnamed: 0" ∉ before.*1 →
       "Unnamed: 0" ∉ after.*1 →
       series df' = before ++ after).
Proof.
  intros Hparsed.
  destruct (load_dataset_parsed env w path df Hparsed) as [evs Hrun].
  exists (cleaned df), (advance 0 evs w).
  split; [exact Hrun|].
  split; [apply cleaned_index|].
  split; [apply cleaned_series|].
  split.
  { unfold columns. rewrite cleaned_series. apply filter_label_gone. }
  split.
  { intros Hnot. unfold cleaned. rewrite bool_decide_eq_false_2 by exact Hnot.
    reflexivity. }
  intros before cells after Hsplit Hb Ha.
  rewrite cleaned_series, Hsplit, filter_app.
  rewrite filter_cons_False by (intros Hne; apply Hne; reflexivity).
  rewrite !filter_other_labels by assumption. reflexivity.
Qed.

(** C10.  Whatever the exceptions of the two spreadsheet stages are, of
    any class and with any text or cause, they are caught: when all three
    parsers fail the loader has called all three, in order, and the
    exception that leaves it is the one [pd.read_csv] raised.  Conversely
    an exception leaves the loader only in that case. *)
Theorem load_dataset_raises_csv_error env w path e :
  (load_dataset path env w).1 = Raise e ↔
  ∃ e1 e2,
    read_excel env path openpyxl = inl e1 ∧
    read_excel env path xlrd = inl e2 ∧
    read_csv env path = inl e ∧
    List.filter is_read (events_since w (load_dataset path env w).2) =
      [EReadExcel path openpyxl; EReadExcel path xlrd; EReadCsv path] ∧
    EPrint ("Excel load failed: " +:+ str_exn e1)
      ∈ events_since w (load_dataset path env w).2 ∧
    EPrint ("xlrd load failed: " +:+ str_exn e2)
      ∈ events_since w (load_dataset path env w).2.
Proof.
  rewrite load_dataset_run.
  destruct (read_excel env path openpyxl) as [e1|df1].
  2: { split; [discriminate|]. intros (? & ? & ? & _); discriminate. }
  destruct (read_excel env path xlrd) as [e2|df2].
  2: { split; [discriminate|]. intros (? & ? & _ & ? & _); discriminate. }
  destruct (read_csv env path) as [e3|df3].
  2: { split; [discriminate|]. intros (? & ? & _ & _ & ? & _); discriminate. }
  cbn [fst snd]. rewrite events_since_advance. split.
  - intros Hraise. inversion Hraise; subst. exists e1, e2.
    repeat split; cbn; set_solver.
  - intros (? & ? & _ & _ & Hcsv & _). inversion Hcsv; subst. reflexivity.
Qed.

(** ** The orchestrator *)

Lemma events_since_stored db coll docs n evs w :
  events_since w (stored db coll docs (advance n evs w)) = evs.
Proof. unfold events_since, stored, advance; simpl. apply drop_app_length. Qed.

Lemma documents_advance n evs w db coll :
  documents (advance n evs w) db coll = documents w db coll.
Proof. reflexivity. Qed.

Lemma advance_stored n evs db coll docs w :
  advance n evs (stored db coll docs w) = stored db coll docs (advance n evs w).
Proof. reflexivity. Qed.

(** The waiter only talks to the server, the clock and the console, and
    leaves the collections alone, whatever the server answers. *)
Lemma rounds_frame env client max_retries delay (items : list Z) : ∀ w,
  ∃ n evs,
    (for_in items (wait_round client max_retries delay) env w).2 = advance n evs w ∧
    forallb is_wait_event evs = true.
Proof.
  induction items as [|i items IH]; intros w.
  - exists 0%nat, []. cbn. rewrite advance_0_nil. split; reflexivity.
  - cbn [for_in]. unfold bind at 1.
    destruct (ismaster env (probes w)) as [e|] eqn:He.
    + destruct (Z.lt_ge_cases i (max_retries - 1)) as [Hlt|Hge].
      * rewrite (round_retry _ _ _ _ _ _ e He Hlt).
        destruct (IH (advance 1 (retry_events (client_uri client) max_retries delay i) w))
          as (n & evs & Hrun & Hevs).
        rewrite Hrun, advance_advance.
        eexists _, _. split; [reflexivity|].
        rewrite forallb_app, Hevs. reflexivity.
      * rewrite (round_give_up _ _ _ _ _ _ e He Hge).
        eexists _, _. split; reflexivity.
    + rewrite (round_available _ _ _ _ _ _ He).
      eexists _, _. split; reflexivity.
Qed.

Lemma wait_frame env w uri max_retries delay :
  ∃ n evs,
    (wait_for_mongodb uri max_retries delay env w).2 = advance n (EConnect uri :: evs) w ∧
    forallb is_wait_event evs = true.
Proof.
  unfold wait_for_mongodb, new_client, bind at 1 2, emit, ret.
  destruct (rounds_frame env (mkClient uri) max_retries delay (range max_retries)
              (log (EConnect uri) w)) as (n & evs & Hrun & Hevs).
  exists n, evs. split; [|exact Hevs].
  rewrite Hrun, log_advance, advance_advance. reflexivity.
Qed.

(** [main] is the two reads of the environment, the wait, and then the
    seeding steps when the wait gave a handle. *)
Lemma main_after_wait env w :
  main env w =
    match wait_for_mongodb (mongo_uri_of env) 30 2 env (advance 0 config_events w) with
    | (Ret (Some _), w2) =>
        match database_fault env (db_name_of env) with
        | None => seed_steps (db_name_of env) (dataset_path_of env) env w2
        | Some e => (Raise e, w2)
        end
    | (Ret None, w2) => (Raise not_subscriptable, w2)
    | (Raise e, w2) => (Raise e, w2)
    end.
Proof.
  unfold main. unfold bind at 1 2 3. unfold environ_get.
  rewrite !log_advance, !advance_advance.
  change (advance (0 + 0) ([EGetenv "MONGO_URI"] ++ [EGetenv "DATASET_PATH"]) w)
    with (advance 0 config_events w).
  fold (mongo_uri_of env). fold (dataset_path_of env). fold (db_name_of env).
  destruct (wait_for_mongodb (mongo_uri_of env) 30 2 env (advance 0 config_events w))
    as [[[c|]|e] w2]; [|reflexivity|reflexivity].
  unfold bind at 1, get_database.
  destruct (database_fault env (db_name_of env)); reflexivity.
Qed.

Lemma seed_steps_count_fault env w db path e :
  count_fault env db "reports" = Some e →
  seed_steps db path env w = (Raise e, advance 0 [ECount db "reports"] w).
Proof.
  intros Hfault. unfold seed_steps, bind at 1, count_documents.
  rewrite Hfault, log_advance. reflexivity.
Qed.

Lemma seed_steps_skip env w db path :
  count_fault env db "reports" = None →
  documents w db "reports" ≠ [] →
  seed_steps db path env w =
    (Ret tt,
     advance 0 [ECount db "reports";
                EPrint ("Collection already has "
                          +:+ pretty (length (documents w db "reports"))
                          +:+ " documents, skipping seed.")] w).
Proof.
  intros Hcount Hdocs. unfold seed_steps, bind at 1, count_documents.
  rewrite Hcount, bool_decide_eq_true_2.
  2: { destruct (documents w db "reports"); [congruence | cbn; lia]. }
  unfold bind, print, emit, ret.
  rewrite !log_advance, !advance_advance. reflexivity.
Qed.

Lemma seed_steps_empty env w db path :
  count_fault env db "reports" = None →
  documents w db "reports" = [] →
  seed_steps db path env w =
    match load_dataset path env (advance 0 [ECount db "reports"] w) with
    | (Raise e, w2) => (Raise e, w2)
    | (Ret df, w2) =>
        let records := to_dict_records df in
        let w3 := advance 0 [EInsertMany db "reports" records] w2 in
        match insert_fault env records with
        | Some (n, e) => (Raise e, stored db "reports" (take n records) w3)
        | None =>
            (Ret tt,
             advance 0 [EPrint ("Seeded " +:+ pretty (length records)
                                  +:+ " documents into " +:+ db +:+ ".reports")]
               (stored db "reports" records w3))
        end
    end.
Proof.
  intros Hcount Hdocs. unfold seed_steps, bind at 1, count_documents.
  rewrite Hcount, Hdocs. rewrite bool_decide_eq_false_2 by (cbn; lia).
  unfold bind at 1. rewrite log_advance.
  destruct (load_dataset path env (advance 0 [ECount db "reports"] w)) as [[df|e] w2];
    [|reflexivity].
  unfold bind, insert_many. cbn zeta. rewrite log_advance.
  destruct (insert_fault env (to_dict_records df)) as [[n e]|]; [reflexivity|].
  unfold print, emit. rewrite log_advance. reflexivity.
Qed.

(** ** Rows as documents *)

Section Records.
Variable i : nat.

Let put (d : document) (c : string * list scalar) : document :=
  match c.2 !! i with
  | Some v => <[c.1 := v]> d
  | None => d
  end.

Lemma fold_put_absent (cols : list (string * list scalar)) : ∀ (d : document) label,
  label ∉ cols.*1 → foldl put d cols !! label = d !! label.
Proof.
  induction cols as [|c cols IH]; intros d label Hnot; [reflexivity|].
  rewrite fmap_cons, not_elem_of_cons in Hnot. destruct Hnot as [Hc Hrest].
  cbn [foldl]. rewrite IH by exact Hrest.
  unfold put. destruct (c.2 !! i); [|reflexivity].
  apply lookup_insert_ne. congruence.
Qed.

Lemma fold_put_present (cols : list (string * list scalar)) :
  ∀ (d : document) label cells v,
  NoDup cols.*1 →
  (label, cells) ∈ cols →
  cells !! i = Some v →
  foldl put d cols !! label = Some v.
Proof.
  induction cols as [|c cols IH]; intros d label cells v Hnodup Hin Hcell.
  - apply elem_of_nil in Hin. contradiction.
  - rewrite fmap_cons in Hnodup. apply NoDup_cons in Hnodup as [Hfresh Hnodup].
    cbn [foldl]. apply elem_of_cons in Hin as [Hhere|Hlater].
    + subst c. rewrite fold_put_absent by exact Hfresh.
      unfold put. cbn [fst snd]. rewrite Hcell. apply lookup_insert_eq.
    + apply (IH _ label cells v Hnodup Hlater Hcell).
Qed.

Lemma fold_put_origin (cols : list (string * list scalar)) :
  ∀ (d : document) label v,
  foldl put d cols !! label = Some v →
  d !! label = Some v ∨ ∃ cells, (label, cells) ∈ cols ∧ cells !! i = Some v.
Proof.
  induction cols as [|c cols IH]; intros d label v Hlook; [left; exact Hlook|].
  cbn [foldl] in Hlook. apply IH in Hlook as [Hd|(cells & Hin & Hcell)].
  - unfold put in Hd. destruct (c.2 !! i) as [v'|] eqn:Hc; [|left; exact Hd].
    destruct (decide (c.1 = label)) as [Heq|Hne].
    + subst label. rewrite lookup_insert_eq in Hd. inversion Hd; subst v'.
      right. exists c.2. split; [|exact Hc].
      destruct c; apply elem_of_cons; left; reflexivity.
    + rewrite lookup_insert_ne in Hd by exact Hne. left; exact Hd.
  - right. exists cells. split; [|exact Hcell].
    apply elem_of_cons; right; exact Hin.
Qed.
End Records.

Lemma record_at_field df i label cells v :
  NoDup (columns df) →
  (label, cells) ∈ series df →
  cells !! i = Some v →
  record_at df i !! label = Some v.
Proof. intros. unfold record_at. eapply fold_put_present; eassumption. Qed.

Lemma record_at_origin df i label v :
  record_at df i !! label = Some v →
  ∃ cells, (label, cells) ∈ series df ∧ cells !! i = Some v.
Proof.
  intros Hlook. unfold record_at in Hlook.
  apply fold_put_origin in Hlook as [Hempty|Hcol]; [|exact Hcol].
  rewrite lookup_empty in Hempty. discriminate.
Qed.

Lemma to_dict_records_length df : length (to_dict_records df) = index df.
Proof. unfold to_dict_records. rewrite length_map, length_seq. reflexivity. Qed.

Lemma to_dict_records_lookup df i :
  (i < index df)%nat → to_dict_records df !! i = Some (record_at df i).
Proof.
  intros Hi. unfold to_dict_records.
  rewrite list_lookup_fmap, lookup_seq_lt by exact Hi. reflexivity.
Qed.

(** ** Splitting the URI *)



(** ** What each part of a run can touch *)

Lemma forallb_Forall {A} (p : A → bool) (l : list A) :
  forallb p l = true → Forall (λ x, p x = true) l.
Proof.
  induction l as [|x l IH]; intros Hall; [constructor|].
  cbn in Hall. apply andb_prop in Hall as [Hx Hl].
  constructor; [exact Hx | exact (IH Hl)].
Qed.

Lemma filter_excluded (P : event → Prop) (q : event → bool) (evs : list event) :
  (∀ ev, P ev → q ev = false) → Forall P evs → List.filter q evs = [].
Proof.
  intros Hex Hall. induction Hall as [|ev evs Hev _ IH]; [reflexivity|].
  cbn. rewrite (Hex ev Hev). exact IH.
Qed.

Lemma wait_event_not_insert ev : is_wait_event ev = true → is_insert ev = false.
Proof. destruct ev; cbn; congruence. Qed.

Lemma wait_event_not_read ev : is_wait_event ev = true → is_read ev = false.
Proof. destruct ev; cbn; congruence. Qed.

Lemma wait_event_not_getenv ev : is_wait_event ev = true → is_getenv ev = false.
Proof. destruct ev; cbn; congruence. Qed.

Lemma seed_event_not_getenv db path ev : seed_event db path ev → is_getenv ev = false.
Proof. destruct ev; cbn; intros H; try reflexivity; contradiction. Qed.

(** The loader's outcome does not depend on the world it starts from; it
    prints and calls parsers on its path, the openpyxl one at least. *)
Lemma load_dataset_frame env path w0 w :
  ∃ levs,
    load_dataset path env w = ((load_dataset path env w0).1, advance 0 levs w) ∧
    EReadExcel path openpyxl ∈ levs ∧
    List.filter is_insert levs = [] ∧
    ∀ db, Forall (seed_event db path) levs.
Proof.
  rewrite !load_dataset_run.
  destruct (read_excel env path openpyxl) as [e|df1].
  2: { eexists; split; [reflexivity|]. split; [set_solver|].
       split; [reflexivity|]. intros db. repeat constructor. }
  destruct (read_excel env path xlrd) as [xe|df2].
  2: { eexists; split; [reflexivity|]. split; [set_solver|].
       split; [reflexivity|]. intros db. repeat constructor. }
  destruct (read_csv env path) as [ce|df3];
    (eexists; split; [reflexivity|]; split; [set_solver|];
     split; [reflexivity|]; intros db; repeat constructor).
Qed.

(** The seeding steps always start with the count query on [db.reports];
    whatever follows is a message, a parser call on [path] or an insert
    into [db.reports]. *)
Lemma seed_steps_frame env w db path :
  ∃ evs,
    trace (seed_steps db path env w).2 = trace w ++ ECount db "reports" :: evs ∧
    Forall (seed_event db path) evs.
Proof.
  destruct (count_fault env db "reports") as [ce|] eqn:Hcount.
  { rewrite (seed_steps_count_fault _ _ _ _ _ Hcount).
    exists []. split; [reflexivity | constructor]. }
  destruct (documents w db "reports") as [|doc docs] eqn:Hdocs.
  - rewrite seed_steps_empty by assumption.
    destruct (load_dataset_frame env path w (advance 0 [ECount db "reports"] w))
      as (levs & Hrun & _ & _ & Hlevs).
    rewrite Hrun. specialize (Hlevs db).
    destruct ((load_dataset path env w).1) as [df|e].
    + cbn zeta.
      destruct (insert_fault env (to_dict_records df)) as [[n e]|]; cbn [snd];
        rewrite ?advance_stored, !advance_advance;
        (eexists; split; [reflexivity|]);
        apply Forall_app; (split; [exact Hlevs|]); repeat constructor.
    + cbn [snd]. rewrite advance_advance.
      eexists; split; [reflexivity|]. exact Hlevs.
  - rewrite seed_steps_skip by congruence.
    eexists; split; [reflexivity|]. repeat constructor.
Qed.

(** The shape of every run of [main]: the two reads of the environment,
    the connection and the waiter's calls, and, when the waiter returned
    a handle, the seeding steps. *)
Lemma main_shape env w :
  ∃ wait_evs seed_evs,
    events_since w (main env w).2 =
      config_events ++ EConnect (mongo_uri_of env) :: wait_evs ++ seed_evs ∧
    Forall (λ ev, is_wait_event ev = true) wait_evs ∧
    Forall (seed_event (db_name_of env) (dataset_path_of env)) seed_evs ∧
    (∀ c w2,
       wait_for_mongodb (mongo_uri_of env) 30 2 env (advance 0 config_events w)
         = (Ret (Some c), w2) →
       match database_fault env (db_name_of env) with
       | None => ∃ rest, seed_evs = ECount (db_name_of env) "reports" :: rest
       | Some e => seed_evs = [] ∧ main env w = (Raise e, w2)
       end).
Proof.
  rewrite main_after_wait.
  destruct (wait_frame env (advance 0 config_events w) (mongo_uri_of env) 30 2)
    as (n & wait_evs & Hworld & Hwait).
  apply forallb_Forall in Hwait.
  destruct (wait_for_mongodb (mongo_uri_of env) 30 2 env (advance 0 config_events w))
    as [[[c|]|e] w2]; cbn [snd] in Hworld; subst w2.
  - destruct (database_fault env (db_name_of env)) as [ne|] eqn:Hname.
    { exists wait_evs, [].
      split.
      { cbn [snd]. rewrite advance_advance, events_since_advance, app_nil_r.
        reflexivity. }
      split; [exact Hwait|]. split; [constructor|].
      intros c' w2 Heq. inversion Heq; subst. split; reflexivity. }
    destruct (seed_steps_frame env
                (advance n (EConnect (mongo_uri_of env) :: wait_evs)
                   (advance 0 config_events w))
                (db_name_of env) (dataset_path_of env)) as (evs & Hevs & Hseed).
    exists wait_evs, (ECount (db_name_of env) "reports" :: evs).
    split; [|split; [exact Hwait|split]].
    + unfold events_since. rewrite Hevs. cbn [trace advance].
      rewrite <- !app_assoc. rewrite drop_app_length. reflexivity.
    + constructor; [split; reflexivity | exact Hseed].
    + intros ? ? _. eexists; reflexivity.
  - exists wait_evs, []. cbn [snd].
    rewrite advance_advance, events_since_advance, app_nil_r.
    repeat split; [exact Hwait | constructor | intros; discriminate].
  - exists wait_evs, []. cbn [snd].
    rewrite advance_advance, events_since_advance, app_nil_r.
    repeat split; [exact Hwait | constructor | intros; discriminate].
Qed.

Lemma documents_stored db coll docs w :
  documents (stored db coll docs w) db coll = documents w db coll ++ docs.
Proof. unfold documents at 1, stored. cbn. rewrite lookup_insert_eq. reflexivity. Qed.

(** C2.  When [reports] already holds a document, a run of [main] leaves
    every collection as it was, calls [insert_many] not once and no parser
    at all; and when the waiter has returned a handle and the count query
    has been answered, [main] returns normally right after that query and
    the message that it skips the seed. *)
Theorem main_skips_nonempty_collection env w :
  documents w (db_name_of env) "reports" ≠ [] →
  let w' := (main env w).2 in
  store w' = store w ∧
  count_of is_insert (events_since w w') = 0%nat ∧
  count_of is_read (events_since w w') = 0%nat ∧
  ∀ c w2,
    wait_for_mongodb (mongo_uri_of env) 30 2 env (advance 0 config_events w)
      = (Ret (Some c), w2) →
    database_fault env (db_name_of env) = None →
    count_fault env (db_name_of env) "reports" = None →
    main env w =
      (Ret tt,
       advance 0 [ECount (db_name_of env) "reports";
                  EPrint ("Collection already has "
                            +:+ pretty (length (documents w (db_name_of env) "reports"))
                            +:+ " documents, skipping seed.")] w2).
Proof.
  intros Hdocs w'. subst w'. rewrite main_after_wait.
  destruct (wait_frame env (advance 0 config_events w) (mongo_uri_of env) 30 2)
    as (n & wait_evs & Hworld & Hwait).
  apply forallb_Forall in Hwait.
  assert (Hins : List.filter is_insert wait_evs = [])
    by (apply (filter_excluded _ _ _ wait_event_not_insert Hwait)).
  assert (Hread : List.filter is_read wait_evs = [])
    by (apply (filter_excluded _ _ _ wait_event_not_read Hwait)).
  destruct (wait_for_mongodb (mongo_uri_of env) 30 2 env (advance 0 config_events w))
    as [[[c|]|e] w2]; cbn [snd] in Hworld; subst w2.
  - destruct (database_fault env (db_name_of env)) as [ne|] eqn:Hname.
    { cbn [snd]. rewrite !advance_advance, events_since_advance.
      split; [reflexivity|].
      unfold count_of. rewrite !List.filter_app.
      cbn [List.filter is_insert is_read config_events].
      rewrite Hins, Hread.
      split; [reflexivity|]. split; [reflexivity|]. intros; discriminate. }
    destruct (count_fault env (db_name_of env) "reports") as [ce|] eqn:Hcount.
    { rewrite (seed_steps_count_fault _ _ _ _ _ Hcount).
      cbn [snd]. rewrite !advance_advance, events_since_advance.
      split; [reflexivity|].
      unfold count_of. rewrite !List.filter_app.
      cbn [List.filter is_insert is_read config_events].
      rewrite Hins, Hread.
      split; [reflexivity|]. split; [reflexivity|]. intros; discriminate. }
    rewrite seed_steps_skip by assumption.
    cbn [snd]. rewrite !advance_advance, events_since_advance.
    split; [reflexivity|].
    unfold count_of. rewrite !List.filter_app.
    cbn [List.filter is_insert is_read config_events].
    rewrite Hins, Hread.
    split; [reflexivity|]. split; [reflexivity|].
    intros c' w2 Heq _ _. inversion Heq; subst.
    rewrite !advance_advance. reflexivity.
  - cbn [snd]. rewrite !advance_advance, events_since_advance.
    split; [reflexivity|].
    unfold count_of. rewrite !List.filter_app.
    cbn [List.filter is_insert is_read config_events].
    rewrite Hins, Hread.
    split; [reflexivity|]. split; [reflexivity|]. intros; discriminate.
  - cbn [snd]. rewrite !advance_advance, events_since_advance.
    split; [reflexivity|].
    unfold count_of. rewrite !List.filter_app.
    cbn [List.filter is_insert is_read config_events].
    rewrite Hins, Hread.
    split; [reflexivity|]. split; [reflexivity|]. intros; discriminate.
Qed.

(** C1.  When the waiter has returned a handle, the count query on
    [reports] is answered and finds it empty, and the loader returns the
    frame [df], a run of [main] calls the loader
    and makes exactly one [insert_many] call, on [reports], with
    [df.to_dict('records')]: one document per row of [df], whose fields
    are cells of that row under their column labels and, the labels
    being distinct as pandas parsers make them, every cell of the row.
    When the driver acknowledges the insert, [main] returns and [reports]
    holds exactly these documents. *)
Theorem main_seeds_empty_collection env w c w2 df :
  wait_for_mongodb (mongo_uri_of env) 30 2 env (advance 0 config_events w)
    = (Ret (Some c), w2) →
  database_fault env (db_name_of env) = None →
  count_fault env (db_name_of env) "reports" = None →
  documents w (db_name_of env) "reports" = [] →
  (load_dataset (dataset_path_of env) env w).1 = Ret df →
  let w' := (main env w).2 in
  let docs := to_dict_records df in
  List.filter is_insert (events_since w w')
    = [EInsertMany (db_name_of env) "reports" docs] ∧
  EReadExcel (dataset_path_of env) openpyxl ∈ events_since w w' ∧
  length docs = index df ∧
  (∀ i, (i < index df)%nat →
     ∃ doc, docs !! i = Some doc ∧
       (∀ label v, doc !! label = Some v →
          ∃ cells, (label, cells) ∈ series df ∧ cells !! i = Some v) ∧
       (NoDup (columns df) →
        ∀ label cells v, (label, cells) ∈ series df → cells !! i = Some v →
          doc !! label = Some v)) ∧
  (insert_fault env docs = None →
     (main env w).1 = Ret tt ∧ documents w' (db_name_of env) "reports" = docs).
Proof.
  intros Hwait Hname Hcount Hdocs Hload w' docs. subst w' docs.
  rewrite main_after_wait.
  destruct (wait_frame env (advance 0 config_events w) (mongo_uri_of env) 30 2)
    as (n & wait_evs & Hworld & Hevs).
  apply forallb_Forall in Hevs.
  assert (Hins : List.filter is_insert wait_evs = [])
    by (apply (filter_excluded _ _ _ wait_event_not_insert Hevs)).
  rewrite Hwait in Hworld |- *. cbn [snd] in Hworld. subst w2.
  rewrite Hname, seed_steps_empty by assumption.
  destruct (load_dataset_frame env (dataset_path_of env) w
              (advance 0 [ECount (db_name_of env) "reports"]
                 (advance n (EConnect (mongo_uri_of env) :: wait_evs)
                    (advance 0 config_events w))))
    as (levs & Hrun & Hcall & Hlevs & _).
  rewrite Hrun, Hload. cbn zeta.
  split; [|split; [|split; [apply to_dict_records_length|split]]].
  - destruct (insert_fault env (to_dict_records df)) as [[k e]|]; cbn [snd];
      rewrite ?advance_stored, !advance_advance, events_since_stored;
      rewrite !List.filter_app, Hlevs; cbn [List.filter is_insert config_events app];
      rewrite Hins; reflexivity.
  - destruct (insert_fault env (to_dict_records df)) as [[k e]|]; cbn [snd];
      rewrite ?advance_stored, !advance_advance, events_since_stored;
      rewrite !elem_of_app; tauto.
  - intros i Hi. exists (record_at df i).
    split; [apply to_dict_records_lookup, Hi|].
    split; [apply record_at_origin|].
    intros Hnodup label cells v. apply record_at_field, Hnodup.
  - intros Hack. rewrite Hack. cbn [fst snd].
    split; [reflexivity|].
    rewrite documents_advance, documents_stored, !documents_advance, Hdocs.
    reflexivity.
Qed.

(** An event of another kind is not in an explicit list of events. *)
Ltac absent_from_list H :=
  unfold config_events in H;
  repeat (apply elem_of_cons in H as [H|H]; [discriminate|]);
  apply elem_of_nil in H; contradiction.


(** ** The environment variables *)

Lemma blind_ret {A} (a : A) : blind (ret a).
Proof. intros vars env w. reflexivity. Qed.

Lemma blind_emit ev : blind (emit ev).
Proof. intros vars env w. reflexivity. Qed.

Lemma blind_raise {A} e : blind (@raise A e).
Proof. intros vars env w. reflexivity. Qed.

Lemma blind_bind {A B} (m : M A) (k : A → M B) :
  blind m → (∀ a, blind (k a)) → blind (bind m k).
Proof.
  intros Hm Hk vars env w. unfold bind. rewrite Hm.
  destruct (m env w) as [[a|e] w1]; [apply Hk | reflexivity].
Qed.

Lemma blind_try_except {A} (body : M A) (handler : exn → M A) :
  blind body → (∀ e, blind (handler e)) → blind (try_except body handler).
Proof.
  intros Hb Hh vars env w. unfold try_except. rewrite Hb.
  destruct (body env w) as [[a|e] w1]; [reflexivity | apply Hh].
Qed.

Lemma blind_for_in {A R} (items : list A) (body : A → M (option R)) :
  (∀ i, blind (body i)) → blind (for_in items body).
Proof.
  intros Hbody. induction items as [|i items IH]; [apply blind_ret|].
  cbn [for_in]. apply blind_bind; [apply Hbody|].
  intros [r|]; [apply blind_ret | exact IH].
Qed.

Lemma blind_wait_for_mongodb uri max_retries delay :
  blind (wait_for_mongodb uri max_retries delay).
Proof.
  unfold wait_for_mongodb, new_client.
  apply blind_bind.
  { apply blind_bind; [apply blind_emit | intros; apply blind_ret]. }
  intros client. apply blind_for_in. intros i. unfold wait_round.
  apply blind_try_except.
  - apply blind_bind; [intros vars env w; reflexivity|].
    intros _. apply blind_bind; [apply blind_emit | intros; apply blind_ret].
  - intros e. destruct (i <? max_retries - 1); [|apply blind_raise].
    apply blind_bind; [apply blind_emit|]. intros _.
    apply blind_bind; [apply blind_emit | intros; apply blind_ret].
Qed.

Lemma blind_load_dataset path : blind (load_dataset path).
Proof.
  intros vars env w. rewrite !load_dataset_run. reflexivity.
Qed.

Lemma blind_seed_steps db path : blind (seed_steps db path).
Proof.
  unfold seed_steps. apply blind_bind; [intros vars env w; reflexivity|].
  intros count. destruct (bool_decide (0 < count)%nat).
  - apply blind_bind; [apply blind_emit | intros; apply blind_ret].
  - apply blind_bind; [apply blind_load_dataset|]. intros df. cbn zeta.
    apply blind_bind; [intros vars env w; reflexivity|].
    intros inserted. apply blind_emit.
Qed.

(** C8.  A run of [main] reads the environment twice, [MONGO_URI] then
    [DATASET_PATH], and nothing else of it: the URI it connects to and
    the path it hands to the parsers are the values of these variables,
    or the defaults when unset, and a run in an environment that agrees
    on the two variables is the same run.  The default URI is
    [mongodb://] [mongodb:27017] [/] [german_credit], whose trailing
    segment is the database name [german_credit]; the default path is
    [/app/german_credit_data] with the extension [.xls]. *)
Theorem main_reads_two_variables env w :
  let evs := events_since w (main env w).2 in
  let uri := match environ env !! "MONGO_URI" with
             | Some v => v
             | None => "mongodb://mongodb:27017/german_credit"
             end in
  let path := match environ env !! "DATASET_PATH" with
              | Some v => v
              | None => "/app/german_credit_data.xls"
              end in
  List.filter is_getenv evs = [EGetenv "MONGO_URI"; EGetenv "DATASET_PATH"] ∧
  (∃ rest, evs = EGetenv "MONGO_URI" :: EGetenv "DATASET_PATH" :: EConnect uri :: rest) ∧
  (∀ p eng, EReadExcel p eng ∈ evs → p = path) ∧
  (∀ p, EReadCsv p ∈ evs → p = path) ∧
  (∀ vars,
     vars !! "MONGO_URI" = environ env !! "MONGO_URI" →
     vars !! "DATASET_PATH" = environ env !! "DATASET_PATH" →
     main (with_environ vars env) w = main env w) ∧
  last_item (split "/" "mongodb://mongodb:27017/german_credit") = "german_credit" ∧
  "mongodb://mongodb:27017/german_credit"
    = "mongodb://" +:+ "mongodb:27017" +:+ "/" +:+ "german_credit" ∧
  "/app/german_credit_data.xls" = "/app/german_credit_data" +:+ ".xls".
Proof.
  intros evs uri path.
  destruct (main_shape env w) as (wait_evs & seed_evs & Hevs & Hwait & Hseed & _).
  change (mongo_uri_of env) with uri in Hevs.
  change (dataset_path_of env) with path in Hseed.
  fold evs in Hevs.
  split; [|split; [|split; [|split; [|split]]]].
  - rewrite Hevs. rewrite List.filter_app. cbn [List.filter is_getenv config_events app].
    rewrite List.filter_app.
    rewrite (filter_excluded _ _ _ wait_event_not_getenv Hwait).
    rewrite (filter_excluded _ _ _ (seed_event_not_getenv _ _) Hseed).
    reflexivity.
  - rewrite Hevs. eexists; reflexivity.
  - rewrite Forall_forall in Hwait, Hseed.
    intros p eng Hin. rewrite Hevs in Hin.
    apply elem_of_app in Hin as [Hin|Hin].
    { absent_from_list Hin. }
    apply elem_of_cons in Hin as [Hin|Hin]; [discriminate|].
    apply elem_of_app in Hin as [Hin|Hin].
    + apply Hwait in Hin. discriminate.
    + apply Hseed in Hin. exact Hin.
  - rewrite Forall_forall in Hwait, Hseed.
    intros p Hin. rewrite Hevs in Hin.
    apply elem_of_app in Hin as [Hin|Hin].
    { absent_from_list Hin. }
    apply elem_of_cons in Hin as [Hin|Hin]; [discriminate|].
    apply elem_of_app in Hin as [Hin|Hin].
    + apply Hwait in Hin. discriminate.
    + apply Hseed in Hin. exact Hin.
  - intros vars Huri Hpath. rewrite !main_after_wait.
    assert (Hu : mongo_uri_of (with_environ vars env) = mongo_uri_of env)
      by (unfold mongo_uri_of; cbn [environ with_environ]; rewrite Huri; reflexivity).
    assert (Hp : dataset_path_of (with_environ vars env) = dataset_path_of env)
      by (unfold dataset_path_of; cbn [environ with_environ]; rewrite Hpath; reflexivity).
    assert (Hd : db_name_of (with_environ vars env) = db_name_of env)
      by (unfold db_name_of; rewrite Hu; reflexivity).
    rewrite Hu, Hp, Hd, blind_wait_for_mongodb.
    destruct (wait_for_mongodb (mongo_uri_of env) 30 2 env (advance 0 config_events w))
      as [[[c|]|e] w2]; [|reflexivity|reflexivity].
    change (database_fault (with_environ vars env)) with (database_fault env).
    destruct (database_fault env (db_name_of env)); [reflexivity|].
    apply blind_seed_steps.
  - repeat split.
Qed.

(** ** Sample runs *)

Example main_demo_trace :
  events_since world0 (main demo_env world0).2 =
    [EGetenv "MONGO_URI"; EGetenv "DATASET_PATH";
     EConnect "mongodb://mongodb:27017/german_credit";
     EIsmaster "mongodb://mongodb:27017/german_credit";
     EPrint "MongoDB not yet available, waiting... (1/30)"; ESleep 2;
     EIsmaster "mongodb://mongodb:27017/german_credit";
     EPrint "MongoDB not yet available, waiting... (2/30)"; ESleep 2;
     EIsmaster "mongodb://mongodb:27017/german_credit";
     EPrint "MongoDB is available!";
     ECount "german_credit" "reports";
     EPrint "Loading dataset from /app/german_credit_data.xls using Excel engine...";
     EReadExcel "/app/german_credit_data.xls" openpyxl;
     EPrint "Excel load failed: File is not a zip file";
     EPrint "Trying with xlrd engine...";
     EReadExcel "/app/german_credit_data.xls" xlrd;
     EInsertMany "german_credit" "reports"
       [ {[ "Age" := SInt 67; "Sex" := SText "male" ]};
         {[ "Age" := SInt 22; "Sex" := SText "female" ]} ];
     EPrint "Seeded 2 documents into german_credit.reports"].
Proof. vm_compute. reflexivity. Qed.

Example main_seeded_trace :
  main demo_env seeded_world =
    (Ret tt,
     advance 3
       [EGetenv "MONGO_URI"; EGetenv "DATASET_PATH";
        EConnect "mongodb://mongodb:27017/german_credit";
        EIsmaster "mongodb://mongodb:27017/german_credit";
        EPrint "MongoDB not yet available, waiting... (1/30)"; ESleep 2;
        EIsmaster "mongodb://mongodb:27017/german_credit";
        EPrint "MongoDB not yet available, waiting... (2/30)"; ESleep 2;
        EIsmaster "mongodb://mongodb:27017/german_credit";
        EPrint "MongoDB is available!";
        ECount "german_credit" "reports";
        EPrint "Collection already has 1 documents, skipping seed."]
       seeded_world).
Proof. vm_compute. reflexivity. Qed.

Example main_empty_name_trace :
  main slash_env world0 =
    (Raise (Exn "InvalidName" "database name cannot be the empty string" None),
     advance 1
       [EGetenv "MONGO_URI"; EGetenv "DATASET_PATH";
        EConnect "mongodb://mongodb:27017/";
        EIsmaster "mongodb://mongodb:27017/";
        EPrint "MongoDB is available!"]
       world0).
Proof. vm_compute. reflexivity. Qed.

Example main_count_refused_trace :
  main locked_env world0 =
    (Raise unauthorized,
     advance 1
       [EGetenv "MONGO_URI"; EGetenv "DATASET_PATH";
        EConnect "mongodb://mongodb:27017/german_credit";
        EIsmaster "mongodb://mongodb:27017/german_credit";
        EPrint "MongoDB is available!";
        ECount "german_credit" "reports"]
       world0).
Proof. vm_compute. reflexivity. Qed.

Example check_name_samples :
  check_name "german_credit" = None ∧
  check_name "german_credit?retryWrites=true" = None ∧
  (∃ e, check_name "" = Some e) ∧
  (∃ e, check_name "my.db" = Some e) ∧
  (∃ e, check_name "my db" = Some e).
Proof. repeat split; eexists; reflexivity. Qed.

Example split_default_uri :
  split "/" "mongodb://mongodb:27017/german_credit"
    = ["mongodb:"; ""; "mongodb:27017"; "german_credit"].
Proof. reflexivity. Qed.

Example split_trailing_slash : last_item (split "/" "mongodb://host:27017/") = "".
Proof. reflexivity. Qed.

Example split_no_slash : last_item (split "/" "german_credit") = "german_credit".
Proof. reflexivity. Qed.

(** ** The theorems at the sample worlds *)

Lemma wait_returns_at_first_success_witness :
  ∃ w',
    wait_for_mongodb "mongodb://mongodb:27017/german_credit" 30 2 demo_env world0
      = (Ret (Some (mkClient "mongodb://mongodb:27017/german_credit")), w') ∧
    count_of is_sleep (events_since world0 w') = 2%nat ∧
    count_of is_probe (events_since world0 w') = 3%nat.
Proof.
  destruct (wait_returns_at_first_success demo_env world0
              "mongodb://mongodb:27017/german_credit" 30 2 3)
    as (w' & Hrun & _ & Hsleeps & Hprobes & _).
  - lia.
  - lia.
  - intros j Hj. destruct j as [|[|j]]; [discriminate | discriminate | simpl in Hj; lia].
  - reflexivity.
  - exists w'. split; [exact Hrun | split; [exact Hsleeps | exact Hprobes]].
Defined.

Lemma wait_raises_after_all_fail_witness :
  ∃ w',
    wait_for_mongodb "mongodb://mongodb:27017/german_credit" 3 2 down_env world0
      = (Raise (Exn "Exception" "Could not connect to MongoDB after retries"
                  (Some refused)), w') ∧
    count_of is_sleep (events_since world0 w') = 2%nat ∧
    count_of is_probe (events_since world0 w') = 3%nat.
Proof.
  destruct (wait_raises_after_all_fail down_env world0
              "mongodb://mongodb:27017/german_credit" 3 2)
    as (e & w' & He & Hrun & _ & Hsleeps & Hprobes & _).
  - lia.
  - intros j _. discriminate.
  - exists w'. simpl in He. inversion He; subst e.
    split; [exact Hrun | split; [exact Hsleeps | exact Hprobes]].
Defined.

Lemma load_dataset_drops_only_placeholder_witness :
  ∃ df' w',
    load_dataset "/app/german_credit_data.xls" demo_env world0 = (Ret df', w') ∧
    series df' = [("Age", [SInt 67; SInt 22]);
                  ("Sex", [SText "male"; SText "female"])].
Proof.
  destruct (load_dataset_drops_only_placeholder demo_env world0
              "/app/german_credit_data.xls" demo_frame)
    as (df' & w' & Hrun & _ & Hseries & _).
  - reflexivity.
  - exists df', w'. split; [exact Hrun | exact Hseries].
Defined.

Lemma load_dataset_raises_csv_error_witness :
  (load_dataset "/nowhere.xls" down_env world0).1 = Raise no_file.
Proof.
  apply (load_dataset_raises_csv_error down_env world0 "/nowhere.xls" no_file).
  exists no_file, no_file. vm_compute.
  repeat split; reflexivity || (repeat constructor).
Defined.

Lemma main_skips_nonempty_collection_witness :
  store (main demo_env seeded_world).2 = store seeded_world ∧
  count_of is_insert (events_since seeded_world (main demo_env seeded_world).2) = 0%nat ∧
  count_of is_read (events_since seeded_world (main demo_env seeded_world).2) = 0%nat.
Proof.
  destruct (main_skips_nonempty_collection demo_env seeded_world)
    as (Hstore & Hinserts & Hreads & _).
  - vm_compute. discriminate.
  - split; [exact Hstore | split; [exact Hinserts | exact Hreads]].
Defined.

Lemma main_seeds_empty_collection_witness :
  List.filter is_insert (events_since world0 (main demo_env world0).2)
    = [EInsertMany "german_credit" "reports"
         [ {[ "Age" := SInt 67; "Sex" := SText "male" ]};
           {[ "Age" := SInt 22; "Sex" := SText "female" ]} ]] ∧
  (main demo_env world0).1 = Ret tt ∧
  documents (main demo_env world0).2 "german_credit" "reports"
    = [ {[ "Age" := SInt 67; "Sex" := SText "male" ]};
        {[ "Age" := SInt 22; "Sex" := SText "female" ]} ].
Proof.
  destruct (main_seeds_empty_collection demo_env world0
              (mkClient "mongodb://mongodb:27017/german_credit")
              (wait_for_mongodb (mongo_uri_of demo_env) 30 2 demo_env
                 (advance 0 config_events world0)).2
              (drop "Unnamed: 0" demo_frame))
    as (Hinsert & _ & _ & _ & Hack).
  - vm_compute. reflexivity.
  - reflexivity.
  - reflexivity.
  - vm_compute. reflexivity.
  - vm_compute. reflexivity.
  - destruct Hack as [Hret Hdocs]; [reflexivity|].
    split; [exact Hinsert | split; [exact Hret | exact Hdocs]].
Defined.

(** ** Every run of the waiter *)

Lemma wait_run_exhausted env w uri max_retries delay e :
  1 ≤ max_retries →
  (∀ j : nat, Z.of_nat j < max_retries → ismaster env (probes w + j) ≠ None) →
  ismaster env (probes w + Z.to_nat (max_retries - 1)) = Some e →
  wait_for_mongodb uri max_retries delay env w =
    (Raise (connect_error e),
     advance (Z.to_nat max_retries) (exhausted_events uri max_retries delay) w).
Proof.
  intros Hmax Hfail He.
  set (n := Z.to_nat (max_retries - 1)) in *.
  unfold wait_for_mongodb, new_client, bind at 1 2, emit, ret.
  rewrite (range_split max_retries n) by lia.
  rewrite rounds_retry.
  2: { intros j Hj. cbn [log probes]. apply Hfail. lia. }
  2: lia.
  replace (Z.to_nat max_retries - n)%nat with 1%nat by lia.
  cbn [seq map for_in]. unfold bind at 1.
  rewrite (round_give_up _ _ _ _ _ _ e) by (cbn [advance log probes]; [exact He || lia]).
  rewrite log_advance, !advance_advance.
  replace (0 + (n + 1))%nat with (Z.to_nat max_retries) by lia.
  reflexivity.
Qed.

Lemma wait_run_none env w uri max_retries delay :
  max_retries ≤ 0 →
  wait_for_mongodb uri max_retries delay env w = (Ret None, advance 0 [EConnect uri] w).
Proof.
  intros Hmax.
  unfold wait_for_mongodb, new_client, bind at 1 2, emit, ret, range.
  replace (Z.to_nat max_retries) with 0%nat by lia.
  cbn [seq map for_in]. unfold ret. rewrite log_advance. reflexivity.
Qed.

(** Among the first [n] answers either all are failures or there is a
    first one that is not. *)
Lemma first_answer (answers : nat → option exn) (n : nat) :
  (∀ j, (j < n)%nat → answers j ≠ None)
  ∨ ∃ k, (k < n)%nat ∧ answers k = None ∧ ∀ j, (j < k)%nat → answers j ≠ None.
Proof.
  induction n as [|n [Hall|(k & Hk & Hok & Hbefore)]].
  - left. intros j Hj. lia.
  - destruct (answers n) as [e|] eqn:Hn.
    + left. intros j Hj. destruct (decide (j = n)) as [->|Hne].
      * rewrite Hn. discriminate.
      * apply Hall. lia.
    + right. exists n. split; [lia|]. split; [exact Hn | exact Hall].
  - right. exists k. split; [lia|]. split; [exact Hok | exact Hbefore].
Qed.

(** The three ways a run of the waiter can go. *)
Lemma wait_cases env w uri max_retries delay :
  (max_retries ≤ 0 ∧
   wait_for_mongodb uri max_retries delay env w = (Ret None, advance 0 [EConnect uri] w))
  ∨ (∃ k : nat,
       (1 ≤ k)%nat ∧ Z.of_nat k ≤ max_retries ∧
       (∀ j, (j < k - 1)%nat → ismaster env (probes w + j) ≠ None) ∧
       ismaster env (probes w + (k - 1)) = None ∧
       wait_for_mongodb uri max_retries delay env w =
         (Ret (Some (mkClient uri)),
          advance k (success_events uri max_retries delay k) w))
  ∨ (1 ≤ max_retries ∧
     (∀ j : nat, Z.of_nat j < max_retries → ismaster env (probes w + j) ≠ None) ∧
     ∃ e,
       ismaster env (probes w + Z.to_nat (max_retries - 1)) = Some e ∧
       wait_for_mongodb uri max_retries delay env w =
         (Raise (connect_error e),
          advance (Z.to_nat max_retries) (exhausted_events uri max_retries delay) w)).
Proof.
  destruct (Z.le_gt_cases max_retries 0) as [Hle|Hgt].
  { left. split; [exact Hle | apply wait_run_none, Hle]. }
  right.
  destruct (first_answer (λ j, ismaster env (probes w + j)) (Z.to_nat max_retries))
    as [Hall|(k & Hk & Hok & Hbefore)].
  - right. split; [lia|].
    assert (Hfail : ∀ j : nat, Z.of_nat j < max_retries →
                               ismaster env (probes w + j) ≠ None)
      by (intros j Hj; apply Hall; lia).
    split; [exact Hfail|].
    destruct (ismaster env (probes w + Z.to_nat (max_retries - 1))) as [e|] eqn:He.
    2: { exfalso. apply (Hfail (Z.to_nat (max_retries - 1))); [lia | exact He]. }
    exists e. split; [reflexivity|].
    apply wait_run_exhausted; [lia | exact Hfail | exact He].
  - left. exists (S k).
    replace (S k - 1)%nat with k by lia.
    split; [lia|]. split; [lia|]. split; [exact Hbefore|]. split; [exact Hok|].
    apply wait_run_success; [lia | lia | |].
    + replace (S k - 1)%nat with k by lia. exact Hbefore.
    + replace (S k - 1)%nat with k by lia. exact Hok.
Qed.

Lemma exhausted_events_sleeps uri max_retries delay :
  count_of is_sleep (exhausted_events uri max_retries delay)
    = Z.to_nat (max_retries - 1).
Proof.
  unfold exhausted_events.
  change (EConnect uri :: ?l) with ([EConnect uri] ++ l).
  rewrite !count_of_app, count_sleeps_retries, length_map, length_seq.
  cbn. lia.
Qed.

Lemma exhausted_events_probes uri max_retries delay :
  count_of is_probe (exhausted_events uri max_retries delay)
    = S (Z.to_nat (max_retries - 1)).
Proof.
  unfold exhausted_events.
  change (EConnect uri :: ?l) with ([EConnect uri] ++ l).
  rewrite !count_of_app, count_probes_retries, length_map, length_seq.
  cbn. lia.
Qed.

(** In the failed rounds every sleep lasts [delay] and every probe goes
    to [uri]. *)
Lemma retries_uniform uri max_retries delay (ixs : list Z) ev :
  ev ∈ flat_map (retry_events uri max_retries delay) ixs →
  match ev with
  | ESleep d => d = delay
  | EIsmaster u => u = uri
  | _ => True
  end.
Proof.
  induction ixs as [|i ixs IH]; intros Hin.
  - apply elem_of_nil in Hin. contradiction.
  - cbn [flat_map] in Hin. apply elem_of_app in Hin as [Hin|Hin]; [|exact (IH Hin)].
    unfold retry_events in Hin.
    repeat (apply elem_of_cons in Hin as [->|Hin]; [exact I || reflexivity|]).
    apply elem_of_nil in Hin. contradiction.
Qed.

(** X1.  With a maximum attempt count that is zero or negative,
    [range(max_retries)] is empty: the waiter only builds the client,
    sends no probe, never sleeps, and returns Python's [None]. *)
Theorem wait_nonpositive_returns_none env w uri max_retries delay :
  max_retries ≤ 0 →
  ∃ w',
    wait_for_mongodb uri max_retries delay env w = (Ret None, w') ∧
    events_since w w' = [EConnect uri] ∧
    probes w' = probes w ∧
    store w' = store w.
Proof.
  intros Hmax. exists (advance 0 [EConnect uri] w).
  split; [apply wait_run_none, Hmax|].
  rewrite events_since_advance. cbn. repeat split. lia.
Qed.

(** X2.  With at least one attempt allowed, the waiter returns the handle
    exactly when the server answers one of the first [max_retries]
    probes, raises exactly when it answers none of them, and never
    returns [None]. *)
Theorem wait_succeeds_iff_answered env w uri max_retries delay :
  1 ≤ max_retries →
  let outcome := (wait_for_mongodb uri max_retries delay env w).1 in
  (outcome = Ret (Some (mkClient uri)) ↔
     ∃ j : nat, Z.of_nat j < max_retries ∧ ismaster env (probes w + j) = None) ∧
  ((∃ e, outcome = Raise e) ↔
     ∀ j : nat, Z.of_nat j < max_retries → ismaster env (probes w + j) ≠ None) ∧
  outcome ≠ Ret None.
Proof.
  intros Hmax outcome. subst outcome.
  destruct (wait_cases env w uri max_retries delay)
    as [[Hle _]|[(k & Hk & Hkmax & Hbefore & Hok & Hrun)|(_ & Hfail & e & He & Hrun)]].
  - lia.
  - rewrite Hrun. cbn [fst]. split; [|split].
    + split; [|reflexivity]. intros _. exists (k - 1)%nat. split; [lia | exact Hok].
    + split.
      * intros [e He]. discriminate.
      * intros Hall. exfalso. apply (Hall (k - 1)%nat); [lia | exact Hok].
    + discriminate.
  - rewrite Hrun. cbn [fst]. split; [|split].
    + split; [discriminate|].
      intros (j & Hj & Hjok). exfalso. exact (Hfail j Hj Hjok).
    + split; [intros _; exact Hfail|]. intros _. eexists; reflexivity.
    + discriminate.
Qed.

(** X3.  Whatever the server answers, the waiter sends at most
    [max_retries] probes, all to the URI it was given, and sleeps exactly
    once between two consecutive probes, each time for [delay]; it never
    sleeps after its last probe and it leaves the collections alone. *)
Theorem wait_bounded_effort env w uri max_retries delay :
  let w' := (wait_for_mongodb uri max_retries delay env w).2 in
  let evs := events_since w w' in
  (count_of is_probe evs ≤ Z.to_nat max_retries)%nat ∧
  count_of is_sleep evs = Nat.pred (count_of is_probe evs) ∧
  (∀ d, ESleep d ∈ evs → d = delay) ∧
  (∀ u, EIsmaster u ∈ evs → u = uri) ∧
  (∀ ev, (∃ before, evs = before ++ [ev]) → is_sleep ev = false) ∧
  store w' = store w.
Proof.
  intros w' evs. subst evs w'.
  destruct (wait_cases env w uri max_retries delay)
    as [[Hle Hrun]|[(k & Hk & Hkmax & _ & _ & Hrun)|(Hmax & _ & e & _ & Hrun)]];
    rewrite Hrun; cbn [snd]; rewrite events_since_advance.
  - split; [cbn; lia|]. split; [reflexivity|].
    split; [intros d Hin; absent_from_list Hin|].
    split; [intros u Hin; absent_from_list Hin|].
    split; [|reflexivity].
    intros ev [before Heq]. destruct before as [|b [|b' before]]; cbn in Heq.
    + inversion Heq. reflexivity.
    + inversion Heq.
    + inversion Heq.
  - rewrite success_events_sleeps, success_events_probes by exact Hk.
    split; [lia|]. split; [lia|].
    unfold success_events.
    split; [|split; [|split; [|reflexivity]]].
    + intros d Hin. apply elem_of_cons in Hin as [Hin|Hin]; [discriminate|].
      apply elem_of_app in Hin as [Hin|Hin].
      * exact (retries_uniform _ _ _ _ _ Hin).
      * absent_from_list Hin.
    + intros u Hin. apply elem_of_cons in Hin as [Hin|Hin]; [discriminate|].
      apply elem_of_app in Hin as [Hin|Hin].
      * exact (retries_uniform _ _ _ _ _ Hin).
      * apply elem_of_cons in Hin as [Hin|Hin]; [congruence|]. absent_from_list Hin.
    + intros ev [before Heq].
      set (rounds := flat_map _ _) in Heq.
      assert (Hshape :
        EConnect uri :: rounds ++ [EIsmaster uri; EPrint "MongoDB is available!"]
        = (EConnect uri :: rounds ++ [EIsmaster uri]) ++ [EPrint "MongoDB is available!"]).
      { cbn [app]. rewrite <- app_assoc. reflexivity. }
      rewrite Hshape in Heq.
      apply app_inj_tail in Heq as [_ <-]. reflexivity.
  - rewrite exhausted_events_sleeps, exhausted_events_probes.
    split; [lia|]. split; [lia|].
    unfold exhausted_events.
    split; [|split; [|split; [|reflexivity]]].
    + intros d Hin. apply elem_of_cons in Hin as [Hin|Hin]; [discriminate|].
      apply elem_of_app in Hin as [Hin|Hin].
      * exact (retries_uniform _ _ _ _ _ Hin).
      * absent_from_list Hin.
    + intros u Hin. apply elem_of_cons in Hin as [Hin|Hin]; [discriminate|].
      apply elem_of_app in Hin as [Hin|Hin].
      * exact (retries_uniform _ _ _ _ _ Hin).
      * apply elem_of_cons in Hin as [Hin|Hin]; [congruence|]. absent_from_list Hin.
    + intros ev [before Heq].
      rewrite app_comm_cons in Heq.
      apply app_inj_tail in Heq as [_ <-]. reflexivity.
Qed.

(** ** Every run of the orchestrator *)

Lemma retries_are_wait_events uri max_retries delay (ixs : list Z) :
  Forall (λ ev, is_wait_event ev = true)
    (flat_map (retry_events uri max_retries delay) ixs).
Proof.
  induction ixs as [|i ixs IH]; [constructor|].
  cbn [flat_map]. apply Forall_app. split; [|exact IH].
  repeat constructor.
Qed.

Lemma success_events_wait uri max_retries delay k :
  Forall (λ ev, is_wait_event ev = true) (success_events uri max_retries delay k).
Proof.
  unfold success_events. constructor; [reflexivity|].
  apply Forall_app. split; [apply retries_are_wait_events | repeat constructor].
Qed.

Lemma exhausted_events_wait uri max_retries delay :
  Forall (λ ev, is_wait_event ev = true) (exhausted_events uri max_retries delay).
Proof.
  unfold exhausted_events. constructor; [reflexivity|].
  apply Forall_app. split; [apply retries_are_wait_events | repeat constructor].
Qed.

Lemma load_outcome_any_world env path w1 w2 :
  (load_dataset path env w1).1 = (load_dataset path env w2).1.
Proof.
  rewrite !load_dataset_run.
  destruct (read_excel env path openpyxl); [|reflexivity].
  destruct (read_excel env path xlrd); [|reflexivity].
  destruct (read_csv env path); reflexivity.
Qed.

(** [main] either gives up after thirty failed probes or, after the
    first probe that is answered, takes the database and, unless its
    name is rejected, goes on to the seeding steps. *)
Lemma main_cases env w :
  (∃ e,
     (∀ j, (j < 30)%nat → ismaster env (probes w + j) ≠ None) ∧
     ismaster env (probes w + 29) = Some e ∧
     main env w =
       (Raise (connect_error e),
        advance 30 (config_events ++ exhausted_events (mongo_uri_of env) 30 2) w))
  ∨ (∃ k : nat,
       (1 ≤ k ≤ 30)%nat ∧
       (∀ j, (j < k - 1)%nat → ismaster env (probes w + j) ≠ None) ∧
       ismaster env (probes w + (k - 1)) = None ∧
       main env w =
         match database_fault env (db_name_of env) with
         | None =>
             seed_steps (db_name_of env) (dataset_path_of env) env
               (advance k
                  (config_events ++ success_events (mongo_uri_of env) 30 2 k) w)
         | Some e =>
             (Raise e,
              advance k (config_events ++ success_events (mongo_uri_of env) 30 2 k) w)
         end).
Proof.
  rewrite main_after_wait.
  destruct (wait_cases env (advance 0 config_events w) (mongo_uri_of env) 30 2)
    as [[Hle _]|[(k & Hk & Hkmax & Hbefore & Hok & Hrun)|(_ & Hfail & e & He & Hrun)]].
  - lia.
  - right. exists k. cbn [advance probes] in Hbefore, Hok.
    rewrite Nat.add_0_r in Hok.
    split; [lia|]. split.
    { intros j Hj. specialize (Hbefore j Hj). rewrite Nat.add_0_r in Hbefore.
      exact Hbefore. }
    split; [exact Hok|].
    rewrite Hrun, advance_advance. reflexivity.
  - left. exists e. cbn [advance probes] in Hfail, He.
    rewrite Nat.add_0_r in He.
    split.
    { intros j Hj. specialize (Hfail j). rewrite Nat.add_0_r in Hfail.
      apply Hfail. lia. }
    split; [exact He|].
    rewrite Hrun, advance_advance. reflexivity.
Qed.

(** The five ways the seeding steps can go. *)
Lemma seed_steps_cases env w db path :
  (∃ e,
     count_fault env db "reports" = Some e ∧
     seed_steps db path env w = (Raise e, advance 0 [ECount db "reports"] w))
  ∨ count_fault env db "reports" = None ∧
  ((documents w db "reports" ≠ [] ∧
   seed_steps db path env w =
     (Ret tt,
      advance 0 [ECount db "reports";
                 EPrint ("Collection already has "
                           +:+ pretty (length (documents w db "reports"))
                           +:+ " documents, skipping seed.")] w))
  ∨ (documents w db "reports" = [] ∧
     ∃ levs,
       List.filter is_insert levs = [] ∧
       ((∃ e,
           (load_dataset path env w).1 = Raise e ∧
           seed_steps db path env w = (Raise e, advance 0 (ECount db "reports" :: levs) w))
        ∨ (∃ df,
             (load_dataset path env w).1 = Ret df ∧
             insert_fault env (to_dict_records df) = None ∧
             seed_steps db path env w =
               (Ret tt,
                stored db "reports" (to_dict_records df)
                  (advance 0
                     (ECount db "reports" :: levs
                        ++ [EInsertMany db "reports" (to_dict_records df);
                            EPrint ("Seeded " +:+ pretty (length (to_dict_records df))
                                      +:+ " documents into " +:+ db +:+ ".reports")])
                     w)))
        ∨ (∃ df n e,
             (load_dataset path env w).1 = Ret df ∧
             insert_fault env (to_dict_records df) = Some (n, e) ∧
             seed_steps db path env w =
               (Raise e,
                stored db "reports" (take n (to_dict_records df))
                  (advance 0
                     (ECount db "reports" :: levs
                        ++ [EInsertMany db "reports" (to_dict_records df)])
                     w)))))).
Proof.
  destruct (count_fault env db "reports") as [ce|] eqn:Hcount.
  { left. exists ce. split; [reflexivity|]. apply seed_steps_count_fault, Hcount. }
  right. split; [reflexivity|].
  destruct (documents w db "reports") as [|doc docs] eqn:Hdocs.
  2: { left. split; [discriminate|].
       rewrite seed_steps_skip by congruence. rewrite Hdocs. reflexivity. }
  right. split; [reflexivity|].
  rewrite seed_steps_empty by assumption.
  destruct (load_dataset_frame env path w (advance 0 [ECount db "reports"] w))
    as (levs & Hrun & _ & Hlevs & _).
  exists levs. split; [exact Hlevs|].
  rewrite Hrun.
  destruct ((load_dataset path env w).1) as [df|e] eqn:Hload.
  - right. cbn zeta.
    destruct (insert_fault env (to_dict_records df)) as [[n e]|] eqn:Hfault.
    + right. exists df, n, e. split; [reflexivity|]. split; [exact Hfault|].
      rewrite !advance_advance. cbn [app Nat.add]. reflexivity.
    + left. exists df. split; [reflexivity|]. split; [exact Hfault|].
      rewrite advance_stored, !advance_advance.
      cbn [app Nat.add]. reflexivity.
  - left. exists e. split; [reflexivity|].
    rewrite advance_advance. reflexivity.
Qed.

Lemma filter_nil_excludes (q : event → bool) (evs : list event) ev :
  List.filter q evs = [] → ev ∈ evs → q ev = false.
Proof.
  induction evs as [|x evs IH]; intros Hnil Hin.
  - apply elem_of_nil in Hin. contradiction.
  - cbn in Hnil. destruct (q x) eqn:Hx; [discriminate|].
    apply elem_of_cons in Hin as [->|Hin]; [exact Hx | exact (IH Hnil Hin)].
Qed.

Lemma wait_events_exclude (q : event → bool) (evs : list event) ev :
  Forall (λ ev, is_wait_event ev = true) evs →
  is_wait_event ev = false → ev ∉ evs.
Proof.
  intros Hall Hev Hin. rewrite Forall_forall in Hall.
  apply Hall in Hin. congruence.
Qed.

Lemma store_stored_other db coll docs w key :
  key ≠ (db, coll) → store (stored db coll docs w) !! key = store w !! key.
Proof. intros Hne. cbn. apply lookup_insert_ne. congruence. Qed.

(** What a run of [main] leaves in the trace and in the store, case by
    case: the insert call, when there is one, is the only one, it was
    made on an empty [reports] with the records of the loaded frame, and
    only [reports] can have changed, by documents added at its end. *)
Lemma main_effects env w :
  let db := db_name_of env in
  let w' := (main env w).2 in
  let evs := events_since w w' in
  (List.filter is_insert evs = [] ∧ store w' = store w)
  ∨ (∃ df n,
       documents w db "reports" = [] ∧
       (load_dataset (dataset_path_of env) env w).1 = Ret df ∧
       List.filter is_insert evs = [EInsertMany db "reports" (to_dict_records df)] ∧
       store w' = <[(db, "reports") := take n (to_dict_records df)]> (store w)).
Proof.
  intros db w' evs. subst db w' evs.
  assert (Hconf : List.filter is_insert config_events = []) by reflexivity.
  destruct (main_cases env w)
    as [(e & _ & _ & Hrun)|(k & _ & _ & _ & Hrun)]; rewrite Hrun.
  { left. cbn [snd]. rewrite events_since_advance, List.filter_app, Hconf.
    rewrite (filter_excluded _ _ _ wait_event_not_insert
               (exhausted_events_wait _ _ _)).
    split; reflexivity. }
  set (wk := advance k (config_events ++ success_events (mongo_uri_of env) 30 2 k) w).
  assert (Hwait :
    List.filter is_insert (config_events ++ success_events (mongo_uri_of env) 30 2 k) = []).
  { rewrite List.filter_app, Hconf.
    apply (filter_excluded _ _ _ wait_event_not_insert (success_events_wait _ _ _ _)). }
  destruct (database_fault env (db_name_of env)) as [ne|].
  { left. cbn [snd]. subst wk. rewrite events_since_advance, Hwait.
    split; reflexivity. }
  destruct (seed_steps_cases env wk (db_name_of env) (dataset_path_of env))
    as [(ce & _ & Hfault)
       |(_ & [[_ Hskip]
             |(Hempty & levs & Hlevs & [(e & _ & Hsteps)
                                       |[(df & Hload & _ & Hsteps)
                                        |(df & n & e & Hload & _ & Hsteps)]])])];
    rewrite ?Hfault, ?Hskip, ?Hsteps; cbn [snd]; subst wk.
  - left. rewrite advance_advance, events_since_advance, List.filter_app, Hwait.
    split; reflexivity.
  - left. rewrite advance_advance, events_since_advance, List.filter_app, Hwait.
    split; reflexivity.
  - left. rewrite advance_advance, events_since_advance, List.filter_app, Hwait.
    cbn [List.filter is_insert]. rewrite Hlevs. split; reflexivity.
  - right. exists df, (length (to_dict_records df)).
    split; [exact Hempty|].
    split; [rewrite <- Hload; apply load_outcome_any_world|].
    rewrite advance_advance, events_since_stored, List.filter_app, Hwait.
    cbn [List.filter is_insert app]. rewrite List.filter_app, Hlevs.
    split; [reflexivity|].
    rewrite documents_advance in Hempty.
    cbn [store stored]. rewrite documents_advance, Hempty, firstn_all.
    reflexivity.
  - right. exists df, n.
    split; [exact Hempty|].
    split; [rewrite <- Hload; apply load_outcome_any_world|].
    rewrite advance_advance, events_since_stored, List.filter_app, Hwait.
    cbn [List.filter is_insert app]. rewrite List.filter_app, Hlevs.
    split; [reflexivity|].
    rewrite documents_advance in Hempty.
    cbn [store stored]. rewrite documents_advance, Hempty.
    reflexivity.
Qed.

Lemma load_result_clean env w path df :
  (load_dataset path env w).1 = Ret df → "Unnamed: 0" ∉ columns df.
Proof.
  rewrite load_dataset_run. intros Hload.
  assert (Hclean : ∀ df0, "Unnamed: 0" ∉ columns (cleaned df0)).
  { intros df0. unfold columns. rewrite cleaned_series. apply filter_label_gone. }
  destruct (read_excel env path openpyxl) as [e1|df1].
  2: { inversion Hload; subst. apply Hclean. }
  destruct (read_excel env path xlrd) as [e2|df2].
  2: { inversion Hload; subst. apply Hclean. }
  destruct (read_csv env path) as [e3|df3]; [discriminate|].
  inversion Hload; subst. apply Hclean.
Qed.

Lemma filter_singleton_member (q : event → bool) (evs : list event) ev x :
  List.filter q evs = [x] → ev ∈ evs → q ev = true → ev = x.
Proof.
  intros Hfilter Hin Hq.
  assert (Hmem : ev ∈ List.filter q evs).
  { apply list_elem_of_In, filter_In. split; [apply list_elem_of_In, Hin | exact Hq]. }
  rewrite Hfilter in Hmem. apply elem_of_cons in Hmem as [->|Hmem]; [reflexivity|].
  apply elem_of_nil in Hmem. contradiction.
Qed.

(** The run that seeds: a probe is answered, the count query finds
    [reports] empty, the loader returns a frame and the driver
    acknowledges the insert. *)
Lemma main_acknowledged_run env w df :
  (∃ j, (j < 30)%nat ∧ ismaster env (probes w + j) = None) →
  database_fault env (db_name_of env) = None →
  count_fault env (db_name_of env) "reports" = None →
  documents w (db_name_of env) "reports" = [] →
  (load_dataset (dataset_path_of env) env w).1 = Ret df →
  insert_fault env (to_dict_records df) = None →
  ∃ (k : nat) before,
    main env w =
      (Ret tt,
       stored (db_name_of env) "reports" (to_dict_records df)
         (advance k
            (before
               ++ [EInsertMany (db_name_of env) "reports" (to_dict_records df);
                   EPrint ("Seeded " +:+ pretty (index df) +:+ " documents into "
                             +:+ db_name_of env +:+ ".reports")])
            w)).
Proof.
  intros (j & Hj & Hanswer) Hname Hcount Hempty Hload Hack.
  destruct (main_cases env w)
    as [(e & Hfail & _)|(k & _ & _ & _ & Hrun)].
  { exfalso. exact (Hfail j Hj Hanswer). }
  rewrite Hrun, Hname.
  set (wk := advance k (config_events ++ success_events (mongo_uri_of env) 30 2 k) w).
  assert (Hload' : (load_dataset (dataset_path_of env) env wk).1 = Ret df)
    by (rewrite <- Hload; apply load_outcome_any_world).
  destruct (seed_steps_cases env wk (db_name_of env) (dataset_path_of env))
    as [(ce & Hce & _)
       |(_ & [[Hdocs _]
             |(_ & levs & _ & [(e & He & _)
                              |[(df' & Hdf & _ & Hsteps)
                               |(df' & n & e & Hdf & Hfault & _)]])])].
  - congruence.
  - exfalso. apply Hdocs. exact Hempty.
  - congruence.
  - assert (df' = df) by congruence. subst df'.
    rewrite Hsteps. subst wk. rewrite advance_advance, to_dict_records_length.
    exists (k + 0)%nat,
      ((config_events ++ success_events (mongo_uri_of env) 30 2 k)
         ++ ECount (db_name_of env) "reports" :: levs).
    rewrite <- !app_assoc. reflexivity.
  - assert (df' = df) by congruence. subst df'. congruence.
Qed.

(** X4.  When the server answers none of the thirty probes, [main]
    raises the waiter's connection error, whose cause is the failure of
    the thirtieth probe.  It has slept twenty-nine times, two seconds
    each, and has made no count query, no parser call and no insert;
    the collections are as they were. *)
Theorem main_raises_when_unreachable env w :
  (∀ j, (j < 30)%nat → ismaster env (probes w + j) ≠ None) →
  let uri := mongo_uri_of env in
  ∃ e w',
    ismaster env (probes w + 29) = Some e ∧
    main env w =
      (Raise (Exn "Exception" "Could not connect to MongoDB after retries" (Some e)),
       w') ∧
    events_since w w' =
      [EGetenv "MONGO_URI"; EGetenv "DATASET_PATH"]
        ++ EConnect uri :: flat_map (retry_events uri 30 2) (range 29)
        ++ [EIsmaster uri] ∧
    count_of is_sleep (events_since w w') = 29%nat ∧
    store w' = store w.
Proof.
  intros Hfail uri.
  destruct (main_cases env w)
    as [(e & _ & He & Hrun)|(k & Hk & _ & Hanswer & _)].
  2: { exfalso. apply (Hfail (k - 1)%nat); [lia | exact Hanswer]. }
  exists e, (advance 30 (config_events ++ exhausted_events uri 30 2) w).
  split; [exact He|]. split; [exact Hrun|].
  rewrite events_since_advance.
  split; [reflexivity|]. split; [|reflexivity].
  rewrite count_of_app, exhausted_events_sleeps. reflexivity.
Qed.

(** X5.  When a probe is answered and the count query finds [reports]
    empty but all three parsers fail, [main] raises the error of
    [pd.read_csv] right after that call: nothing is inserted and the
    collections are as they were. *)
Theorem main_raises_parser_error env w e1 e2 e3 :
  (∃ j, (j < 30)%nat ∧ ismaster env (probes w + j) = None) →
  database_fault env (db_name_of env) = None →
  count_fault env (db_name_of env) "reports" = None →
  documents w (db_name_of env) "reports" = [] →
  read_excel env (dataset_path_of env) openpyxl = inl e1 →
  read_excel env (dataset_path_of env) xlrd = inl e2 →
  read_csv env (dataset_path_of env) = inl e3 →
  let w' := (main env w).2 in
  (main env w).1 = Raise e3 ∧
  (∃ before, events_since w w' = before ++ [EReadCsv (dataset_path_of env)]) ∧
  count_of is_insert (events_since w w') = 0%nat ∧
  store w' = store w.
Proof.
  intros (j & Hj & Hanswer) Hname Hcount Hempty H1 H2 H3 w'. subst w'.
  destruct (main_cases env w)
    as [(e & Hfail & _)|(k & _ & _ & _ & Hrun)].
  { exfalso. exact (Hfail j Hj Hanswer). }
  rewrite Hrun, Hname, seed_steps_empty by assumption.
  rewrite load_dataset_run, H1, H2, H3.
  cbn [fst snd]. rewrite !advance_advance, events_since_advance.
  split; [reflexivity|]. split; [|split; [|reflexivity]].
  - eexists. unfold stage3_events.
    rewrite !app_assoc.
    change [EPrint ("xlrd load failed: " +:+ str_exn e2);
            EPrint "Falling back to CSV parser...";
            EReadCsv (dataset_path_of env)]
      with ([EPrint ("xlrd load failed: " +:+ str_exn e2);
             EPrint "Falling back to CSV parser..."]
              ++ [EReadCsv (dataset_path_of env)]).
    rewrite app_assoc. reflexivity.
  - unfold count_of. rewrite !List.filter_app.
    rewrite (filter_excluded _ _ _ wait_event_not_insert (success_events_wait _ _ _ _)).
    reflexivity.
Qed.

(** X6.  When the count query has found [reports] empty, the loader has
    returned a frame and the driver raises during the insert, [main]
    raises that error right after the [insert_many] call: the success
    message is not printed, and [reports] holds the documents written
    before the failure. *)
Theorem main_raises_insert_error env w df n e :
  (∃ j, (j < 30)%nat ∧ ismaster env (probes w + j) = None) →
  database_fault env (db_name_of env) = None →
  count_fault env (db_name_of env) "reports" = None →
  documents w (db_name_of env) "reports" = [] →
  (load_dataset (dataset_path_of env) env w).1 = Ret df →
  insert_fault env (to_dict_records df) = Some (n, e) →
  let w' := (main env w).2 in
  (main env w).1 = Raise e ∧
  (∃ before,
     events_since w w' =
       before ++ [EInsertMany (db_name_of env) "reports" (to_dict_records df)]) ∧
  documents w' (db_name_of env) "reports" = take n (to_dict_records df).
Proof.
  intros (j & Hj & Hanswer) Hname Hcount Hempty Hload Hfault w'. subst w'.
  destruct (main_cases env w)
    as [(e0 & Hfail & _)|(k & _ & _ & _ & Hrun)].
  { exfalso. exact (Hfail j Hj Hanswer). }
  rewrite Hrun, Hname.
  set (wk := advance k (config_events ++ success_events (mongo_uri_of env) 30 2 k) w).
  assert (Hload' : (load_dataset (dataset_path_of env) env wk).1 = Ret df)
    by (rewrite <- Hload; apply load_outcome_any_world).
  destruct (seed_steps_cases env wk (db_name_of env) (dataset_path_of env))
    as [(ce & Hce & _)
       |(_ & [[Hdocs _]
             |(_ & levs & _ & [(e' & He & _)
                              |[(df' & Hdf & Hack & _)
                               |(df' & n' & e' & Hdf & Hfault' & Hsteps)]])])].
  - congruence.
  - exfalso. apply Hdocs. exact Hempty.
  - congruence.
  - assert (df' = df) by congruence. subst df'. congruence.
  - assert (df' = df) by congruence. subst df'.
    assert (n' = n ∧ e' = e) as [-> ->] by (split; congruence).
    rewrite Hsteps. subst wk. cbn [fst snd].
    rewrite advance_advance, events_since_stored.
    split; [reflexivity|]. split.
    + exists ((config_events ++ success_events (mongo_uri_of env) 30 2 k)
                ++ ECount (db_name_of env) "reports" :: levs).
      rewrite <- !app_assoc. reflexivity.
    + rewrite documents_stored, documents_advance, Hempty. reflexivity.
Qed.

(** X7.  On the run that seeds (a probe answered, the count query
    finding [reports] empty, the frame loaded and the insert
    acknowledged), [main] returns normally and the last
    two things it does are the insert and the message
    ["Seeded n documents into db.reports"], where [n] is the number of
    rows of the loaded frame and [db] the database name. *)
Theorem main_reports_inserted_count env w df :
  (∃ j, (j < 30)%nat ∧ ismaster env (probes w + j) = None) →
  database_fault env (db_name_of env) = None →
  count_fault env (db_name_of env) "reports" = None →
  documents w (db_name_of env) "reports" = [] →
  (load_dataset (dataset_path_of env) env w).1 = Ret df →
  insert_fault env (to_dict_records df) = None →
  (main env w).1 = Ret tt ∧
  ∃ before,
    events_since w (main env w).2 =
      before
        ++ [EInsertMany (db_name_of env) "reports" (to_dict_records df);
            EPrint ("Seeded " +:+ pretty (index df) +:+ " documents into "
                      +:+ db_name_of env +:+ ".reports")].
Proof.
  intros Hanswer Hname Hcount Hempty Hload Hack.
  destruct (main_acknowledged_run env w df Hanswer Hname Hcount Hempty Hload Hack)
    as (k & before & Hrun).
  rewrite Hrun. cbn [fst snd]. split; [reflexivity|].
  exists before. apply events_since_stored.
Qed.

(** X8.  Whatever the outside world does, a run of [main] calls
    [insert_many] at most once, and when it does, [reports] was empty at
    the start of the run and the documents are the records of the frame
    the loader returned: [main] never inserts into a collection that
    already holds documents. *)
Theorem main_inserts_at_most_once env w :
  let evs := events_since w (main env w).2 in
  (count_of is_insert evs ≤ 1)%nat ∧
  ∀ d c docs,
    EInsertMany d c docs ∈ evs →
    d = db_name_of env ∧ c = "reports" ∧
    documents w (db_name_of env) "reports" = [] ∧
    ∃ df,
      (load_dataset (dataset_path_of env) env w).1 = Ret df ∧
      docs = to_dict_records df.
Proof.
  intros evs. subst evs. unfold count_of.
  destruct (main_effects env w)
    as [[Hnone _]|(df & n & Hempty & Hload & Hone & _)].
  - rewrite Hnone. split; [cbn; lia|].
    intros d c docs Hin.
    apply (filter_nil_excludes _ _ _ Hnone) in Hin. discriminate.
  - rewrite Hone. split; [cbn; lia|].
    intros d c docs Hin.
    apply (filter_singleton_member _ _ _ _ Hone) in Hin; [|reflexivity].
    inversion Hin; subst.
    repeat split; [exact Hempty|]. exists df. split; [exact Hload | reflexivity].
Qed.

(** X9.  A run of [main] never removes or changes a stored document and
    never touches a collection other than [reports] of its database: all
    other collections are as they were, and [reports] holds what it held
    with, possibly, documents added at its end. *)
Theorem main_keeps_existing_documents env w :
  let w' := (main env w).2 in
  (∀ key, key ≠ (db_name_of env, "reports") → store w' !! key = store w !! key) ∧
  ∃ added,
    documents w' (db_name_of env) "reports"
      = documents w (db_name_of env) "reports" ++ added.
Proof.
  intros w'. subst w'.
  destruct (main_effects env w)
    as [[_ Hstore]|(df & n & Hempty & _ & _ & Hstore)].
  - split; [intros key _; rewrite Hstore; reflexivity|].
    exists []. unfold documents. rewrite Hstore, app_nil_r. reflexivity.
  - split.
    + intros key Hne. rewrite Hstore. apply lookup_insert_ne. congruence.
    + exists (take n (to_dict_records df)).
      rewrite Hempty. unfold documents. rewrite Hstore, lookup_insert_eq.
      reflexivity.
Qed.

(** X10.  Seeding is idempotent: once a run of [main] has left at least
    one document in [reports], whether that run returned or raised after
    a partial write, the next run in the same environment inserts
    nothing, calls no parser and leaves the collections as that run left
    them, whether the server still answers or not. *)
Theorem main_second_run_skips env w :
  let w1 := (main env w).2 in
  let w2 := (main env w1).2 in
  documents w1 (db_name_of env) "reports" ≠ [] →
  count_of is_insert (events_since w1 w2) = 0%nat ∧
  store w2 = store w1 ∧
  documents w2 (db_name_of env) "reports" = documents w1 (db_name_of env) "reports".
Proof.
  intros w1 w2 Hdocs. subst w2.
  destruct (main_effects env w1)
    as [[Hnone Hstore]|(df & n & Hempty & _)].
  - unfold count_of. rewrite Hnone. split; [reflexivity|].
    split; [exact Hstore|]. unfold documents. rewrite Hstore. reflexivity.
  - exfalso. exact (Hdocs Hempty).
Qed.

(** X11.  No document that [main] hands to [insert_many] has a field
    named ["Unnamed: 0"], whatever the parsed file looks like. *)
Theorem main_never_inserts_placeholder env w d c docs (doc : document) :
  EInsertMany d c docs ∈ events_since w (main env w).2 →
  doc ∈ docs →
  doc !! "Unnamed: 0" = None.
Proof.
  intros Hin Hdoc.
  destruct (main_effects env w)
    as [[Hnone _]|(df & n & _ & Hload & Hone & _)].
  { apply (filter_nil_excludes _ _ _ Hnone) in Hin. discriminate. }
  apply (filter_singleton_member _ _ _ _ Hone) in Hin; [|reflexivity].
  inversion Hin; subst.
  unfold to_dict_records in Hdoc.
  apply list_elem_of_fmap in Hdoc as (i & -> & _).
  destruct (record_at df i !! "Unnamed: 0") as [v|] eqn:Hfield; [|reflexivity].
  exfalso. apply record_at_origin in Hfield as (cells & Hcol & _).
  apply (load_result_clean _ _ _ _ Hload).
  unfold columns. apply list_elem_of_fmap. exists ("Unnamed: 0", cells).
  split; [reflexivity | exact Hcol].
Qed.

(** ** Records of the cleaned frame, and the trailing segment *)

Lemma fold_put_filter (i : nat) (label : string) (cols : list (string * list scalar)) :
  ∀ d : document,
    foldl (λ d c, match c.2 !! i with
                  | Some v => <[c.1 := v]> d
                  | None => d
                  end) (delete label d) (filter (λ c, c.1 ≠ label) cols)
    = delete label
        (foldl (λ d c, match c.2 !! i with
                       | Some v => <[c.1 := v]> d
                       | None => d
                       end) d cols).
Proof.
  induction cols as [|c cols IH]; intros d; [reflexivity|].
  cbn [foldl]. destruct (decide (c.1 = label)) as [Heq|Hne].
  - rewrite filter_cons_False by (intros Hne; exact (Hne Heq)).
    rewrite <- IH. f_equal.
    destruct (c.2 !! i) as [v|]; [|reflexivity].
    rewrite Heq. symmetry. apply delete_insert_eq.
  - rewrite filter_cons_True by exact Hne.
    cbn [foldl]. rewrite <- IH. f_equal.
    destruct (c.2 !! i) as [v|]; [|reflexivity].
    symmetry. apply delete_insert_ne. congruence.
Qed.

(** X13.  Dropping the placeholder column before the conversion comes to
    the same as converting the parsed frame and deleting the field
    ["Unnamed: 0"] from every record: the records of the cleaned frame
    are those of the parsed frame without that field, nothing else
    changed. *)
Theorem records_of_cleaned_frame df :
  to_dict_records (cleaned df) = map (delete "Unnamed: 0") (to_dict_records df).
Proof.
  unfold to_dict_records. rewrite cleaned_index, map_map.
  apply map_ext. intros i. unfold record_at.
  rewrite cleaned_series, <- fold_put_filter, delete_empty. reflexivity.
Qed.

Lemma split_without_separator sep s :
  has_char sep s = false → split sep s = [s].
Proof.
  induction s as [|c s IH]; intros Hs; [reflexivity|].
  cbn [has_char split] in Hs |- *. apply orb_false_elim in Hs as [Hc Hrest].
  rewrite Hc, (IH Hrest). reflexivity.
Qed.

Lemma split_after_separator sep prefix seg :
  has_char sep seg = false →
  ∃ w ws, split sep (prefix +:+ String sep seg) = (w :: ws) ++ [seg].
Proof.
  intros Hseg. induction prefix as [|c prefix (w & ws & IH)].
  - exists "", []. change ("" +:+ String sep seg) with (String sep seg).
    cbn [split].
    rewrite Ascii.eqb_refl, (split_without_separator _ _ Hseg). reflexivity.
  - change (String c prefix +:+ String sep seg)
      with (String c (prefix +:+ String sep seg)).
    cbn [split]. rewrite IH.
    destruct (Ascii.eqb c sep).
    + exists "", (w :: ws). reflexivity.
    + exists (String c w), ws. reflexivity.
Qed.

(** X14.  The database name [mongo_uri.split('/')[-1]] is computed as
    follows: for a URI [prefix/seg] whose part [seg] has no ['/'] it is
    [seg], whatever else [seg] holds (a query string stays in it), and
    for a URI without any ['/'] it is the whole URI. *)
Theorem trailing_segment_rule (s prefix seg : string) :
  has_char "/" seg = false →
  last_item (split "/" (prefix +:+ String "/" seg)) = seg ∧
  (has_char "/" s = false → last_item (split "/" s) = s).
Proof.
  intros Hseg. split.
  - destruct (split_after_separator "/" prefix seg Hseg) as (w & ws & Hsplit).
    unfold last_item. rewrite Hsplit. apply last_last.
  - intros Hs. rewrite (split_without_separator _ _ Hs). reflexivity.
Qed.

(** The insert call of a run that reaches it. *)
Lemma main_insert_call env w df :
  (∃ j, (j < 30)%nat ∧ ismaster env (probes w + j) = None) →
  database_fault env (db_name_of env) = None →
  count_fault env (db_name_of env) "reports" = None →
  documents w (db_name_of env) "reports" = [] →
  (load_dataset (dataset_path_of env) env w).1 = Ret df →
  List.filter is_insert (events_since w (main env w).2)
    = [EInsertMany (db_name_of env) "reports" (to_dict_records df)].
Proof.
  intros (j & Hj & Hanswer) Hname Hcount Hempty Hload.
  destruct (main_effects env w)
    as [[Hnone _]|(df' & n & _ & Hload' & Hone & _)].
  2: { assert (df' = df) by congruence. subst df'. exact Hone. }
  exfalso.
  destruct (main_cases env w)
    as [(e & Hfail & _)|(k & _ & _ & _ & Hrun)].
  { exact (Hfail j Hj Hanswer). }
  rewrite Hrun, Hname in Hnone.
  set (wk := advance k (config_events ++ success_events (mongo_uri_of env) 30 2 k) w)
    in *.
  assert (Hload' : (load_dataset (dataset_path_of env) env wk).1 = Ret df)
    by (rewrite <- Hload; apply load_outcome_any_world).
  destruct (seed_steps_cases env wk (db_name_of env) (dataset_path_of env))
    as [(ce & Hce & _)
       |(_ & [[Hdocs _]
             |(_ & levs & _ & [(e & He & _)
                              |[(df' & _ & _ & Hsteps)
                               |(df' & n & e & _ & _ & Hsteps)]])])].
  - congruence.
  - apply Hdocs. exact Hempty.
  - congruence.
  - rewrite Hsteps in Hnone. subst wk. cbn [snd] in Hnone.
    rewrite advance_advance, events_since_stored in Hnone.
    eapply (filter_nil_excludes _ _ (EInsertMany _ _ _)) in Hnone; [discriminate|].
    apply elem_of_app; right. apply elem_of_cons; right.
    apply elem_of_app; right. apply elem_of_cons; left. reflexivity.
  - rewrite Hsteps in Hnone. subst wk. cbn [snd] in Hnone.
    rewrite advance_advance, events_since_stored in Hnone.
    eapply (filter_nil_excludes _ _ (EInsertMany _ _ _)) in Hnone; [discriminate|].
    apply elem_of_app; right. apply elem_of_cons; right.
    apply elem_of_app; right. apply elem_of_cons; left. reflexivity.
Qed.

(** X15.  [main] has no guard for an empty dataset: when the count
    query has found [reports] empty and the loaded frame has no rows,
    [main] still makes the insert call, with an empty list of documents,
    and what happens next is up to the driver. *)
Theorem main_inserts_empty_batch env w df :
  (∃ j, (j < 30)%nat ∧ ismaster env (probes w + j) = None) →
  database_fault env (db_name_of env) = None →
  count_fault env (db_name_of env) "reports" = None →
  documents w (db_name_of env) "reports" = [] →
  (load_dataset (dataset_path_of env) env w).1 = Ret df →
  index df = 0%nat →
  List.filter is_insert (events_since w (main env w).2)
    = [EInsertMany (db_name_of env) "reports" []] ∧
  ((main env w).1 = Ret tt ↔ insert_fault env [] = None).
Proof.
  intros Hanswer Hname Hcount Hempty Hload Hrows.
  assert (Hdocs : to_dict_records df = []).
  { unfold to_dict_records. rewrite Hrows. reflexivity. }
  split.
  { rewrite (main_insert_call env w df Hanswer Hname Hcount Hempty Hload), Hdocs.
    reflexivity. }
  destruct (insert_fault env []) as [[n e]|] eqn:Hfault.
  - split; [|discriminate]. intros Hret. exfalso.
    destruct Hanswer as (j & Hj & Hanswer).
    destruct (main_cases env w)
      as [(e0 & Hfail & _)|(k & _ & _ & _ & Hrun)].
    { exact (Hfail j Hj Hanswer). }
    rewrite Hrun, Hname in Hret.
    set (wk := advance k (config_events ++ success_events (mongo_uri_of env) 30 2 k) w)
      in *.
    assert (Hload' : (load_dataset (dataset_path_of env) env wk).1 = Ret df)
      by (rewrite <- Hload; apply load_outcome_any_world).
    destruct (seed_steps_cases env wk (db_name_of env) (dataset_path_of env))
      as [(ce & Hce & _)
         |(_ & [[Hne _]
               |(_ & levs & _ & [(e' & He & _)
                                |[(df' & Hdf & Hack & _)
                                 |(df' & n' & e' & _ & _ & Hsteps)]])])].
    + congruence.
    + apply Hne. exact Hempty.
    + congruence.
    + assert (df' = df) by congruence. subst df'. rewrite Hdocs in Hack. congruence.
    + rewrite Hsteps in Hret. discriminate.
  - split; [reflexivity|]. intros _.
    rewrite <- Hdocs in Hfault.
    destruct (main_acknowledged_run env w df Hanswer Hname Hcount Hempty Hload Hfault)
      as (k & before & Hrun).
    rewrite Hrun. reflexivity.
Qed.

(** ** The further theorems at the sample worlds *)

Lemma wait_nonpositive_returns_none_witness :
  ∃ w',
    wait_for_mongodb "mongodb://mongodb:27017/german_credit" (-3) 2 demo_env world0
      = (Ret None, w') ∧
    events_since world0 w' = [EConnect "mongodb://mongodb:27017/german_credit"].
Proof.
  destruct (wait_nonpositive_returns_none demo_env world0
              "mongodb://mongodb:27017/german_credit" (-3) 2)
    as (w' & Hrun & Hevs & _).
  - lia.
  - exists w'. split; [exact Hrun | exact Hevs].
Defined.

Lemma wait_succeeds_iff_answered_witness :
  (wait_for_mongodb "mongodb://mongodb:27017/german_credit" 30 2 demo_env world0).1
    = Ret (Some (mkClient "mongodb://mongodb:27017/german_credit")).
Proof.
  destruct (wait_succeeds_iff_answered demo_env world0
              "mongodb://mongodb:27017/german_credit" 30 2)
    as [[_ Hanswered] _].
  - lia.
  - apply Hanswered. exists 2%nat. split; [lia | reflexivity].
Defined.

Lemma main_raises_when_unreachable_witness :
  ∃ w',
    main down_env world0 =
      (Raise (Exn "Exception" "Could not connect to MongoDB after retries"
                (Some refused)), w') ∧
    count_of is_sleep (events_since world0 w') = 29%nat.
Proof.
  destruct (main_raises_when_unreachable down_env world0)
    as (e & w' & He & Hrun & _ & Hsleeps & _).
  - intros j _. discriminate.
  - exists w'. simpl in He. inversion He; subst e.
    split; [exact Hrun | exact Hsleeps].
Defined.

Lemma main_raises_parser_error_witness :
  (main unreadable_env world0).1 = Raise no_file ∧
  store (main unreadable_env world0).2 = store world0.
Proof.
  destruct (main_raises_parser_error unreadable_env world0 bad_zip bad_zip no_file)
    as (Hraise & _ & _ & Hstore).
  - exists 0%nat. split; [lia | reflexivity].
  - reflexivity.
  - reflexivity.
  - reflexivity.
  - reflexivity.
  - reflexivity.
  - reflexivity.
  - split; [exact Hraise | exact Hstore].
Defined.

Lemma main_raises_insert_error_witness :
  (main faulty_env world0).1 = Raise write_error ∧
  documents (main faulty_env world0).2 "german_credit" "reports"
    = [ {[ "Age" := SInt 67; "Sex" := SText "male" ]} ].
Proof.
  destruct (main_raises_insert_error faulty_env world0
              (drop "Unnamed: 0" demo_frame) 1 write_error)
    as (Hraise & _ & Hdocs).
  - exists 0%nat. split; [lia | reflexivity].
  - reflexivity.
  - reflexivity.
  - reflexivity.
  - vm_compute. reflexivity.
  - reflexivity.
  - split; [exact Hraise | exact Hdocs].
Defined.

Lemma main_reports_inserted_count_witness :
  (main demo_env world0).1 = Ret tt ∧
  ∃ before,
    events_since world0 (main demo_env world0).2 =
      before
        ++ [EInsertMany "german_credit" "reports"
              [ {[ "Age" := SInt 67; "Sex" := SText "male" ]};
                {[ "Age" := SInt 22; "Sex" := SText "female" ]} ];
            EPrint "Seeded 2 documents into german_credit.reports"].
Proof.
  destruct (main_reports_inserted_count demo_env world0 (drop "Unnamed: 0" demo_frame))
    as (Hret & before & Hevs).
  - exists 2%nat. split; [lia | reflexivity].
  - reflexivity.
  - reflexivity.
  - reflexivity.
  - vm_compute. reflexivity.
  - reflexivity.
  - split; [exact Hret|]. exists before. exact Hevs.
Defined.

Lemma main_second_run_skips_witness :
  (main faulty_env world0).1 = Raise write_error ∧
  count_of is_insert
    (events_since (main faulty_env world0).2
       (main faulty_env (main faulty_env world0).2).2)
    = 0%nat ∧
  store (main faulty_env (main faulty_env world0).2).2
    = store (main faulty_env world0).2.
Proof.
  destruct (main_second_run_skips faulty_env world0) as (Hnone & Hstore & _).
  - vm_compute. discriminate.
  - split; [reflexivity|]. split; [exact Hnone | exact Hstore].
Defined.

Lemma main_never_inserts_placeholder_witness :
  ({[ "Age" := SInt 67; "Sex" := SText "male" ]} : document) !! "Unnamed: 0" = None.
Proof.
  apply (main_never_inserts_placeholder demo_env world0 "german_credit" "reports"
           [ {[ "Age" := SInt 67; "Sex" := SText "male" ]};
             {[ "Age" := SInt 22; "Sex" := SText "female" ]} ]).
  - vm_compute. do 17 apply list_elem_of_further. apply list_elem_of_here.
  - apply list_elem_of_here.
Defined.

Lemma trailing_segment_rule_witness :
  last_item (split "/" ("mongodb://mongodb:27017" +:+ String "/" "credit?retryWrites=true"))
    = "credit?retryWrites=true".
Proof.
  apply (trailing_segment_rule "" "mongodb://mongodb:27017" "credit?retryWrites=true").
  reflexivity.
Defined.

Lemma main_inserts_empty_batch_witness :
  List.filter is_insert (events_since world0 (main empty_file_env world0).2)
    = [EInsertMany "german_credit" "reports" []].
Proof.
  destruct (main_inserts_empty_batch empty_file_env world0
              {| index := 0; series := [("Age", [])] |})
    as [Hcall _].
  - exists 0%nat. split; [lia | reflexivity].
  - reflexivity.
  - reflexivity.
  - reflexivity.
  - vm_compute. reflexivity.
  - reflexivity.
  - exact Hcall.
Defined.

